(** * FactFusion: the cache-then-refresh data flow, filter state and payout views

    A shallow embedding of [src/lib/fetchNews.ts], [src/store/filtersSlice.ts],
    the dashboard page [Home] (second unit of [src/pages/_app.tsx]) and the
    pages [NewsAnalytics] and [AdminPayout] ([src/pages/news-analytics.tsx]).

    Conventions of the embedding.
    - A JavaScript value that is an array or [undefined] is an [option (list _)];
      a string or [null]/[undefined] is an [option string].
    - Asynchronous code is a state-and-exception monad over the browser-local
      store and the log of HTTP requests issued; one effect body runs atomically.
    - [Date.now()] reads the environment's clock, which does not advance inside
      one run; IndexedDB requests are assumed to succeed. *)

From Stdlib Require Import ZArith QArith Qround Qabs Lia Bool Ascii DecimalString.
From stdpp Require Import base option list strings gmap.

Local Open Scope Z_scope.

(** ** Articles *)

(** One element of the provider's [articles] array, as [mapArticle] reads it. *)
Record RawItem := mkRawItem {
  raw_title : string;
  raw_description : option string;
  raw_url : string;
  raw_urlToImage : option string;
  raw_author : option string;
  raw_publishedAt : string;
  raw_source : option string
}.

(** [interface Article]; [type] is declared [string] in all three pages. *)
Record Article := mkArticle {
  title : string;
  description : option string;
  url : string;
  urlToImage : option string;
  author : option string;
  publishedAt : string;
  source : option string;
  type : string
}.

(** ** The browser-local store *)

(** A stored record.  The application writes [{articles, timestamp}] and
    [{news, blogs, timestamp}]; a field the record lacks reads as [undefined]. *)
Record CacheValue := mkCache {
  c_articles : option (list Article);
  c_news : option (list Article);
  c_blogs : option (list Article);
  c_timestamp : Z
}.

Inductive Request :=
| TopHeadlines
| TopHeadlinesIn (category : string).

(** What [res.json()] followed by reading [data.articles] delivers. *)
Inductive Body :=
| BodyInvalid
| BodyData (articles : option (list RawItem)).

Inductive HttpResult :=
| NetworkError
| Response (ok : bool) (body : Body).

Record Env := mkEnv {
  browser : bool;
  online : bool;
  now : Z;
  network : Request -> HttpResult
}.

Record World := mkWorld {
  store : gmap string CacheValue;
  requests : list Request
}.

(** ** The effect monad: state over [World], with a thrown error *)

Inductive Result (A : Type) :=
| Ok (a : A)
| Throw.
Arguments Ok {A} a.
Arguments Throw {A}.

Definition M (A : Type) : Type := World -> Result A * World.

Definition ret {A} (a : A) : M A := fun w => (Ok a, w).

Definition throw {A} : M A := fun w => (Throw, w).

Definition bind {A B} (c : M A) (k : A -> M B) : M B :=
  fun w => match c w with
           | (Ok a, w') => k a w'
           | (Throw, w') => (Throw, w')
           end.

(** [p.then(k).catch(h)]: a rejection of [p] or of [k] runs [h]. *)
Definition then_catch {A B} (p : M A) (k : A -> M B) (h : M B) : M B :=
  fun w => match bind p k w with
           | (Ok b, w') => (Ok b, w')
           | (Throw, w') => h w'
           end.

Declare Scope eff_scope.
Delimit Scope eff_scope with eff.
Notation "'let*' x ':=' c 'in' k" := (bind c (fun x => k))
  (at level 10, x name, c at level 99, k at level 200) : eff_scope.
Notation "c ';;' k" := (bind c (fun _ => k))
  (at level 100, k at level 200, right associativity) : eff_scope.
Local Open Scope eff_scope.

Definition saveToIndexedDB (key : string) (value : CacheValue) : M unit :=
  fun w => (Ok tt, mkWorld (<[key := value]> (store w)) (requests w)).

Definition getFromIndexedDB (key : string) : M (option CacheValue) :=
  fun w => (Ok (store w !! key), w).

(** [await fetch(url)]: one request is issued; a network error rejects. *)
Definition fetch (env : Env) (r : Request) : M (bool * Body) :=
  fun w =>
    let w' := mkWorld (store w) (requests w ++ [r]) in
    match network env r with
    | NetworkError => (Throw, w')
    | Response ok body => (Ok (ok, body), w')
    end.

(** [await res.json()] and the read of [data.articles]. *)
Definition json_articles (b : Body) : M (option (list RawItem)) :=
  match b with
  | BodyInvalid => throw
  | BodyData arts => ret arts
  end.

(** ** [src/lib/fetchNews.ts] *)

Definition HOUR : Z := 60 * 60 * 1000.

(** [Date.now() - cache.timestamp < 60 * 60 * 1000] *)
Definition fresh (env : Env) (c : CacheValue) : bool :=
  now env - c_timestamp c <? HOUR.

Definition mapArticle (ty : string) (item : RawItem) : Article :=
  {| title := raw_title item;
     description := raw_description item;
     url := raw_url item;
     urlToImage := raw_urlToImage item;
     author := raw_author item;
     publishedAt := raw_publishedAt item;
     source := raw_source item;
     type := ty |}.

(** The type label of the data model: ["news"] or ["blogs"], hence never the
    empty string. *)
Definition valid_type (a : Article) : Prop :=
  (type a = "news" \/ type a = "blogs") /\ type a <> "".

(** [(data.articles || []).map(...)] *)
Definition mapArticles (ty : string) (arts : option (list RawItem)) : list Article :=
  map (mapArticle ty) (default [] arts).

(** The part of [fetchNews] after the cache lookup. *)
Definition fetchNews_remote (env : Env) : M (option (list Article)) :=
  let* res := fetch env TopHeadlines in
  if negb (fst res) then throw
  else
    let* data := json_articles (snd res) in
    let articles := mapArticles "news" data in
    (if browser env
     then saveToIndexedDB "newsapi_news"
            (mkCache (Some articles) None None (now env))
     else ret tt);;
    ret (Some articles).

Definition fetchNews (env : Env) : M (option (list Article)) :=
  let* cache := (if browser env then getFromIndexedDB "newsapi_news" else ret None) in
  match cache with
  | Some c => if fresh env c then ret (c_articles c) else fetchNews_remote env
  | None => fetchNews_remote env
  end.

(** The object [{ news, blogs }] a call of [fetchNewsAndBlogs] resolves to. *)
Record NewsAndBlogs := mkNB {
  nb_news : option (list Article);
  nb_blogs : option (list Article)
}.

(** The part of [fetchNewsAndBlogs] after the cache lookup; [newsRes.ok] and
    [blogsRes.ok] are never read. *)
Definition fetchNewsAndBlogs_remote (env : Env) : M NewsAndBlogs :=
  let* newsRes := fetch env (TopHeadlinesIn "technology") in
  let* newsData := json_articles (snd newsRes) in
  let* blogsRes := fetch env (TopHeadlinesIn "general") in
  let* blogsData := json_articles (snd blogsRes) in
  let news := mapArticles "news" newsData in
  let blogs := mapArticles "blogs" blogsData in
  (if browser env
   then saveToIndexedDB "newsapi_news_blogs"
          (mkCache None (Some news) (Some blogs) (now env))
   else ret tt);;
  ret (mkNB (Some news) (Some blogs)).

Definition fetchNewsAndBlogs (env : Env) : M NewsAndBlogs :=
  let* cache := (if browser env then getFromIndexedDB "newsapi_news_blogs" else ret None) in
  match cache with
  | Some c =>
      if fresh env c then ret (mkNB (c_news c) (c_blogs c))
      else fetchNewsAndBlogs_remote env
  | None => fetchNewsAndBlogs_remote env
  end.

(** ** The JavaScript built-ins the views use *)

Module JS.

(** *** Strings.  Characters are bytes; [toLowerCase] maps the ASCII capitals
    and leaves every other byte as it is. *)

Definition lower_char (c : ascii) : ascii :=
  let n := N_of_ascii c in
  if (65 <=? n)%N && (n <=? 90)%N then ascii_of_N (n + 32) else c.

Fixpoint toLowerCase (s : string) : string :=
  match s with
  | EmptyString => EmptyString
  | String c s' => String (lower_char c) (toLowerCase s')
  end.

(** [s.startsWith(t)] *)
Fixpoint startsWith (s t : string) : bool :=
  match t, s with
  | EmptyString, _ => true
  | String _ _, EmptyString => false
  | String b t', String a s' => bool_decide (a = b) && startsWith s' t'
  end.

(** [s.includes(t)] *)
Fixpoint includes (s t : string) : bool :=
  startsWith s t ||
  match s with
  | EmptyString => false
  | String _ s' => includes s' t
  end.

(** [x || "Unknown"] on a string or [null]: the empty string is falsy too. *)
Definition orUnknown (x : option string) : string :=
  match x with
  | Some (String c s) => String c s
  | Some EmptyString => "Unknown"
  | None => "Unknown"
  end.

(** A string used as a condition. *)
Definition truthy (s : string) : bool :=
  match s with
  | EmptyString => false
  | String _ _ => true
  end.

(** *** Dates.  A [Date] is its time value in milliseconds since the epoch;
    [None] is the NaN of an invalid date. *)

Definition Date : Type := option Z.

(** [a >= b] and [a <= b] on dates compare the time values; a comparison
    with NaN is false. *)
Definition date_ge (a b : Date) : bool :=
  match a, b with
  | Some x, Some y => y <=? x
  | _, _ => false
  end.

Definition date_le (a b : Date) : bool :=
  match a, b with
  | Some x, Some y => x <=? y
  | _, _ => false
  end.

Definition digit (c : ascii) : option Z :=
  let n := Z.of_N (N_of_ascii c) in
  if (48 <=? n) && (n <=? 57) then Some (n - 48) else None.

(** Reads exactly [k] decimal digits. *)
Fixpoint read_digits (k : nat) (acc : Z) (s : string) : option (Z * string) :=
  match k with
  | O => Some (acc, s)
  | S k' =>
      match s with
      | String c s' =>
          match digit c with
          | Some d => read_digits k' (10 * acc + d) s'
          | None => None
          end
      | EmptyString => None
      end
  end.

Definition expect (c : ascii) (s : string) : option string :=
  match s with
  | String a s' => if bool_decide (a = c) then Some s' else None
  | EmptyString => None
  end.

Definition leap (y : Z) : bool :=
  ((y mod 4 =? 0) && negb (y mod 100 =? 0)) || (y mod 400 =? 0).

Definition days_in_month (y m : Z) : Z :=
  if m =? 2 then (if leap y then 29 else 28)
  else if (m =? 4) || (m =? 6) || (m =? 9) || (m =? 11) then 30
  else 31.

(** Days from 1970-01-01 to the civil date [y]-[m]-[d]. *)
Definition days_from_civil (y m d : Z) : Z :=
  let y' := if m <=? 2 then y - 1 else y in
  let era := y' / 400 in
  let yoe := y' - era * 400 in
  let mp := if 2 <? m then m - 3 else m + 9 in
  let doy := (153 * mp + 2) / 5 + d - 1 in
  let doe := yoe * 365 + yoe / 4 - yoe / 100 + doy in
  era * 146097 + doe - 719468.

Definition msPerDay : Z := 86400000.

(** The time of day after the date: nothing (midnight UTC of a date-only
    string), or [THH:mm:ssZ], or [THH:mm:ss.sssZ]. *)
Definition read_time (s : string) : option Z :=
  match s with
  | EmptyString => Some 0
  | _ =>
      s ← expect "T" s;
      '(h, s) ← read_digits 2 0 s;
      s ← expect ":" s;
      '(mi, s) ← read_digits 2 0 s;
      s ← expect ":" s;
      '(sec, s) ← read_digits 2 0 s;
      '(ms, s) ← match s with
                  | String "." s' => read_digits 3 0 s'
                  | _ => Some (0, s)
                  end;
      s ← expect "Z" s;
      if (h <=? 23) && (mi <=? 59) && (sec <=? 59) && bool_decide (s = EmptyString)
      then Some (h * 3600000 + mi * 60000 + sec * 1000 + ms)
      else None
  end.

(** [new Date(s)] for the date-time string format of the language standard,
    in the two shapes the application meets: [YYYY-MM-DD], which the
    page's date inputs deliver, and [YYYY-MM-DDTHH:mm:ss(.sss)Z], which
    the news provider delivers.  Both are read as UTC.  Any other string is
    an invalid date here. *)
Definition newDate_iso (s : string) : Date :=
  '(y, s) ← read_digits 4 0 s;
  s ← expect "-" s;
  '(m, s) ← read_digits 2 0 s;
  s ← expect "-" s;
  '(d, s) ← read_digits 2 0 s;
  t ← read_time s;
  if (1 <=? m) && (m <=? 12) && (1 <=? d) && (d <=? days_in_month y m)
  then Some (days_from_civil y m d * msPerDay + t)
  else None.

(** *** Numbers.  A finite double is idealised as the rational it denotes:
    no rounding, no overflow, no signed zero. *)

Inductive Num :=
| NaN
| PosInf
| NegInf
| Fin (q : Q).

Definition isNaN (x : Num) : bool :=
  match x with
  | NaN => true
  | _ => false
  end.

(** [x >= 0] *)
Definition ge0 (x : Num) : bool :=
  match x with
  | NaN => false
  | PosInf => true
  | NegInf => false
  | Fin q => match (0 ?= q)%Q with Gt => false | _ => true end
  end.

(** A number that is not NaN and is at least 0. *)
Definition nonNegative (x : Num) : Prop :=
  isNaN x = false /\ ge0 x = true.

Definition sign (q : Q) : comparison := (q ?= 0)%Q.

(** [x * y] *)
Definition mul (x y : Num) : Num :=
  match x, y with
  | NaN, _ | _, NaN => NaN
  | Fin a, Fin b => Fin (a * b)
  | Fin a, PosInf | PosInf, Fin a =>
      match sign a with Eq => NaN | Gt => PosInf | Lt => NegInf end
  | Fin a, NegInf | NegInf, Fin a =>
      match sign a with Eq => NaN | Gt => NegInf | Lt => PosInf end
  | PosInf, PosInf | NegInf, NegInf => PosInf
  | PosInf, NegInf | NegInf, PosInf => NegInf
  end.

Definition ofZ (n : Z) : Num := Fin (inject_Z n).

Definition decimal (n : Z) : string :=
  NilZero.string_of_uint (N.to_uint (Z.to_N n)).

Definition pad2 (n : Z) : string :=
  if n <? 10 then "0" +:+ decimal n else decimal n.

(** [q.toFixed(2)] below 10^21: the integer [n] with [n / 100] nearest to
    [|q|], the larger one on a tie. *)
Definition toFixed2_Q (q : Q) : string :=
  let neg := match sign q with Lt => true | _ => false end in
  let n := Qfloor (Qabs q * 100 + (1 # 2))%Q in
  (if neg then "-" else "") +:+ decimal (n / 100) +:+ "." +:+ pad2 (n mod 100).

Definition toFixed2 (x : Num) : string :=
  match x with
  | NaN => "NaN"
  | PosInf => "Infinity"
  | NegInf => "-Infinity"
  | Fin q => toFixed2_Q q
  end.

(** Reads the longest run of decimal digits: its value, its length and the
    rest of the string. *)
Fixpoint read_nat (acc : Z) (len : nat) (s : string) : Z * nat * string :=
  match s with
  | String c s' =>
      match digit c with
      | Some d => read_nat (10 * acc + d) (S len) s'
      | None => (acc, len, s)
      end
  | EmptyString => (acc, len, s)
  end.

Definition unsigned_literal (s : string) : Num :=
  if bool_decide (s = "Infinity") then PosInf
  else
    let '(ip, ilen, s1) := read_nat 0 0 s in
    match s1 with
    | EmptyString => if (0 <? ilen)%nat then ofZ ip else NaN
    | String "." s2 =>
        let '(fp, flen, s3) := read_nat 0 0 s2 in
        if bool_decide (s3 = EmptyString) && (0 <? ilen + flen)%nat
        then Fin (inject_Z ip + inject_Z fp / inject_Z (10 ^ Z.of_nat flen))%Q
        else NaN
    | _ => NaN
    end.

Definition neg (x : Num) : Num :=
  match x with
  | NaN => NaN
  | PosInf => NegInf
  | NegInf => PosInf
  | Fin q => Fin (- q)
  end.

(** [Number(s)] on plain decimal literals: an optional sign, then digits with
    an optional fraction, or [Infinity]; the empty string is 0.  Exponents,
    radix prefixes and surrounding white space, which [Number] reads as well,
    are outside this fragment and come out as NaN here. *)
Definition Number_decimal (s : string) : Num :=
  match s with
  | EmptyString => ofZ 0
  | String "-" s' => neg (unsigned_literal s')
  | String "+" s' => unsigned_literal s'
  | _ => unsigned_literal s
  end.

(** *** Sets of strings.  [Array.from(new Set(xs))] lists the distinct
    elements of [xs] in the order of their first occurrence. *)

Fixpoint uniq_into (seen xs : list string) : list string :=
  match xs with
  | [] => seen
  | x :: xs' =>
      if bool_decide (x ∈ seen) then uniq_into seen xs'
      else uniq_into (seen ++ [x]) xs'
  end.

Definition uniq (xs : list string) : list string := uniq_into [] xs.

End JS.

(** ** [src/store/filtersSlice.ts] *)

Module FiltersSlice.

Inductive FilterType := news | blogs | all.

Record FiltersState := mkFilters {
  type : FilterType;
  searchTerm : string;
  selectedAuthor : string;
  startDate : string;
  endDate : string
}.

Definition initialState : FiltersState := mkFilters news "" "All" "" "".

Definition setType (state : FiltersState) (payload : FilterType) : FiltersState :=
  let state := mkFilters payload (searchTerm state) (selectedAuthor state)
                 (startDate state) (endDate state) in
  let state := mkFilters (type state) (searchTerm state) "All"
                 (startDate state) (endDate state) in
  let state := mkFilters (type state) "" (selectedAuthor state)
                 (startDate state) (endDate state) in
  let state := mkFilters (type state) (searchTerm state) (selectedAuthor state)
                 "" (endDate state) in
  mkFilters (type state) (searchTerm state) (selectedAuthor state)
    (startDate state) "".

Definition setSearchTerm (state : FiltersState) (payload : string) : FiltersState :=
  mkFilters (type state) payload (selectedAuthor state) (startDate state) (endDate state).

Definition setSelectedAuthor (state : FiltersState) (payload : string) : FiltersState :=
  mkFilters (type state) (searchTerm state) payload (startDate state) (endDate state).

Definition setStartDate (state : FiltersState) (payload : string) : FiltersState :=
  mkFilters (type state) (searchTerm state) (selectedAuthor state) payload (endDate state).

Definition setEndDate (state : FiltersState) (payload : string) : FiltersState :=
  mkFilters (type state) (searchTerm state) (selectedAuthor state) (startDate state) payload.

Definition resetFilters (state : FiltersState) : FiltersState :=
  let state := mkFilters (type state) (searchTerm state) "All"
                 (startDate state) (endDate state) in
  let state := mkFilters (type state) "" (selectedAuthor state)
                 (startDate state) (endDate state) in
  let state := mkFilters (type state) (searchTerm state) (selectedAuthor state)
                 "" (endDate state) in
  mkFilters (type state) (searchTerm state) (selectedAuthor state)
    (startDate state) "".

Inductive Action :=
| SetType (payload : FilterType)
| SetSearchTerm (payload : string)
| SetSelectedAuthor (payload : string)
| SetStartDate (payload : string)
| SetEndDate (payload : string)
| ResetFilters.

Definition reducer (state : FiltersState) (a : Action) : FiltersState :=
  match a with
  | SetType t => setType state t
  | SetSearchTerm s => setSearchTerm state s
  | SetSelectedAuthor s => setSelectedAuthor state s
  | SetStartDate d => setStartDate state d
  | SetEndDate d => setEndDate state d
  | ResetFilters => resetFilters state
  end.

End FiltersSlice.

(** ** The page orchestrators *)

(** [cached && cached.news && cached.blogs]: an array is truthy, also when empty. *)
Definition has_news_blogs (cached : option CacheValue) : bool :=
  match cached with
  | Some c => bool_decide (is_Some (c_news c)) && bool_decide (is_Some (c_blogs c))
  | None => false
  end.

(** [cached && Array.isArray(cached.articles) && cached.articles.length > 0] *)
Definition has_articles (cached : option CacheValue) : bool :=
  match cached with
  | Some c => match c_articles c with
              | Some (_ :: _) => true
              | _ => false
              end
  | None => false
  end.

(** The dashboard page, [Home]. *)
Module Home.

Definition KEY : string := "newsapi_news_blogs".

Record Props := mkProps {
  ssrNews : list Article;
  ssrBlogs : list Article
}.

(** The four [useState] cells of the component. *)
Record State := mkState {
  news : option (list Article);
  blogs : option (list Article);
  apiError : bool;
  offlineArticles : option NewsAndBlogs
}.

Definition initial (p : Props) : State :=
  mkState (Some (ssrNews p)) (Some (ssrBlogs p)) false None.

Definition setNews v st := mkState v (blogs st) (apiError st) (offlineArticles st).
Definition setBlogs v st := mkState (news st) v (apiError st) (offlineArticles st).
Definition setApiError v st := mkState (news st) (blogs st) v (offlineArticles st).
Definition setOfflineArticles v st := mkState (news st) (blogs st) (apiError st) v.

(** First effect: load from IndexedDB on mount. *)
Definition hydrate (env : Env) (p : Props) (st : State) : M State :=
  if browser env then
    let* cached := getFromIndexedDB KEY in
    if has_news_blogs cached then
      ret (setOfflineArticles (Some (mkNB (cached ≫= c_news) (cached ≫= c_blogs)))
             (setBlogs (cached ≫= c_blogs) (setNews (cached ≫= c_news) st)))
    else
      let st' := setOfflineArticles None
                   (setBlogs (Some (ssrBlogs p)) (setNews (Some (ssrNews p)) st)) in
      saveToIndexedDB KEY
        (mkCache None (Some (ssrNews p)) (Some (ssrBlogs p)) (now env));;
      ret st'
  else ret st.

(** Second effect: if online and nothing cached, fetch and persist. *)
Definition refresh (env : Env) (st : State) : M State :=
  if browser env && online env then
    let* cached := getFromIndexedDB KEY in
    if negb (has_news_blogs cached) then
      then_catch (fetchNewsAndBlogs env)
        (fun r =>
           let st' := setOfflineArticles (Some (mkNB (nb_news r) (nb_blogs r)))
                        (setBlogs (nb_blogs r) (setNews (nb_news r) st)) in
           saveToIndexedDB KEY (mkCache None (nb_news r) (nb_blogs r) (now env));;
           ret st')
        (ret (setApiError true st))
    else ret st
  else ret st.

(** Third effect: if offline, use the IndexedDB cache. *)
Definition offline (env : Env) (st : State) : M State :=
  if browser env && negb (online env) then
    let* cached := getFromIndexedDB KEY in
    if has_news_blogs cached then
      ret (setOfflineArticles (Some (mkNB (cached ≫= c_news) (cached ≫= c_blogs))) st)
    else ret st
  else ret st.

(** [news.length === 0 && blogs.length === 0]; reading [length] of
    [undefined] throws in the effect callback itself. *)
Definition both_empty (st : State) : M bool :=
  match news st with
  | None => throw
  | Some [] => match blogs st with
               | None => throw
               | Some [] => ret true
               | Some (_ :: _) => ret false
               end
  | Some (_ :: _) => ret false
  end.

(** Last effect: fall back to IndexedDB when both collections are empty. *)
Definition emptyFallback (env : Env) (st : State) : M State :=
  let* e := both_empty st in
  if e && browser env then
    let* cached := getFromIndexedDB KEY in
    if has_news_blogs cached then
      ret (setOfflineArticles (Some (mkNB (cached ≫= c_news) (cached ≫= c_blogs))) st)
    else ret (setApiError true st)
  else ret st.

Inductive Effect := Hydrate | Refresh | Offline | EmptyFallback.

Definition run_effect (env : Env) (p : Props) (e : Effect) (st : State) : M State :=
  match e with
  | Hydrate => hydrate env p st
  | Refresh => refresh env st
  | Offline => offline env st
  | EmptyFallback => emptyFallback env st
  end.

Fixpoint run_effects (env : Env) (p : Props) (es : list Effect) (st : State) : M State :=
  match es with
  | [] => ret st
  | e :: es' => let* st' := run_effect env p e st in run_effects env p es' st'
  end.

(** The effects of one mount, in the order the component declares them. *)
Definition mount (env : Env) (p : Props) : M State :=
  run_effects env p [Hydrate; Refresh; Offline; EmptyFallback] (initial p).

(** [if (apiError) return ...]: the page renders "Unable to load news data". *)
Definition unavailable (st : State) : bool := apiError st.

(** What the dashboard shows once the cached batch [n], [b] is adopted. *)
Definition adopted (n b : list Article) (st : State) : Prop :=
  news st = Some n /\ blogs st = Some b
  /\ offlineArticles st = Some (mkNB (Some n) (Some b)).

(** Both collections hold an array. *)
Definition arrays (st : State) : Prop :=
  is_Some (news st) /\ is_Some (blogs st).

(** *** The filtered view of the dashboard *)

Section Views.
(** [new Date(...)], see [JS.newDate_iso]. *)
Variable newDate : string -> JS.Date.

(** [article.description?.toLowerCase().includes(...)] is [undefined],
    hence falsy, for an article without description. *)
Definition matchesSearch (filters : FiltersSlice.FiltersState) (article : Article) : bool :=
  JS.includes (JS.toLowerCase (title article)) (JS.toLowerCase (FiltersSlice.searchTerm filters))
  || match description article with
     | Some d => JS.includes (JS.toLowerCase d) (JS.toLowerCase (FiltersSlice.searchTerm filters))
     | None => false
     end.

Definition matchesAuthor (filters : FiltersSlice.FiltersState) (article : Article) : bool :=
  bool_decide (FiltersSlice.selectedAuthor filters = "All")
  || bool_decide (JS.orUnknown (author article) = FiltersSlice.selectedAuthor filters).

Definition matchesStart (filters : FiltersSlice.FiltersState) (article : Article) : bool :=
  if JS.truthy (FiltersSlice.startDate filters)
  then JS.date_ge (newDate (publishedAt article)) (newDate (FiltersSlice.startDate filters))
  else true.

Definition matchesEnd (filters : FiltersSlice.FiltersState) (article : Article) : bool :=
  if JS.truthy (FiltersSlice.endDate filters)
  then JS.date_le (newDate (publishedAt article)) (newDate (FiltersSlice.endDate filters))
  else true.

(** The callback of [articlesToUse.filter(...)]. *)
Definition passes (filters : FiltersSlice.FiltersState) (article : Article) : bool :=
  matchesSearch filters article && matchesAuthor filters article
  && matchesStart filters article && matchesEnd filters article.

Definition filtered (filters : FiltersSlice.FiltersState)
    (articlesToUse : list Article) : list Article :=
  List.filter (passes filters) articlesToUse.

End Views.

(** The effect "reset filters when type changes":
    [dispatch(resetFilters()); dispatch(setType(filters.type))], with the
    type the render saw. *)
Definition resetOnTypeChange (filters : FiltersSlice.FiltersState)
    : FiltersSlice.FiltersState :=
  FiltersSlice.reducer
    (FiltersSlice.reducer filters FiltersSlice.ResetFilters)
    (FiltersSlice.SetType (FiltersSlice.type filters)).

(** The entries of the author dropdown:
    [["All", ...Array.from(new Set(articles.map((a) => a.author || "Unknown")))]] *)
Definition authors (articles : list Article) : list string :=
  "All" :: JS.uniq (map (fun a => JS.orUnknown (author a)) articles).

End Home.

(** The analytics page, [NewsAnalytics]; it declares no error flag. *)
Module NewsAnalytics.

Definition KEY : string := "newsapi_news_blogs".

Record Props := mkProps {
  ssrNews : list Article;
  ssrBlogs : list Article
}.

Record State := mkState {
  news : option (list Article);
  blogs : option (list Article)
}.

Definition initial (p : Props) : State :=
  mkState (Some (ssrNews p)) (Some (ssrBlogs p)).

Definition setNews v st := mkState v (blogs st).
Definition setBlogs v st := mkState (news st) v.

Definition hydrate (env : Env) (p : Props) (st : State) : M State :=
  if browser env then
    let* cached := getFromIndexedDB KEY in
    if has_news_blogs cached then
      ret (setBlogs (cached ≫= c_blogs) (setNews (cached ≫= c_news) st))
    else
      let st' := setBlogs (Some (ssrBlogs p)) (setNews (Some (ssrNews p)) st) in
      saveToIndexedDB KEY
        (mkCache None (Some (ssrNews p)) (Some (ssrBlogs p)) (now env));;
      ret st'
  else ret st.

(** [.catch(() => {})]: a failure is swallowed. *)
Definition refresh (env : Env) (st : State) : M State :=
  if browser env && online env then
    let* cached := getFromIndexedDB KEY in
    if negb (has_news_blogs cached) then
      then_catch (fetchNewsAndBlogs env)
        (fun r =>
           let st' := setBlogs (nb_blogs r) (setNews (nb_news r) st) in
           saveToIndexedDB KEY (mkCache None (nb_news r) (nb_blogs r) (now env));;
           ret st')
        (ret st)
    else ret st
  else ret st.

Definition offline (env : Env) (st : State) : M State :=
  if browser env && negb (online env) then
    let* cached := getFromIndexedDB KEY in
    if has_news_blogs cached then
      ret (setBlogs (cached ≫= c_blogs) (setNews (cached ≫= c_news) st))
    else ret st
  else ret st.

Inductive Effect := Hydrate | Refresh | Offline.

Definition run_effect (env : Env) (p : Props) (e : Effect) (st : State) : M State :=
  match e with
  | Hydrate => hydrate env p st
  | Refresh => refresh env st
  | Offline => offline env st
  end.

Fixpoint run_effects (env : Env) (p : Props) (es : list Effect) (st : State) : M State :=
  match es with
  | [] => ret st
  | e :: es' => let* st' := run_effect env p e st in run_effects env p es' st'
  end.

Definition mount (env : Env) (p : Props) : M State :=
  run_effects env p [Hydrate; Refresh; Offline] (initial p).

(** The component has no [apiError] cell and its render has no
    data-unavailable branch. *)
Definition unavailable (st : State) : bool := false.

(** [Array.from(new Set(allArticles.map((a) => a.type)))] *)
Definition allTypes (allArticles : list Article) : list string :=
  JS.uniq (map type allArticles).

(** [Array.from(new Set(allArticles.map((a) => a.author || "Unknown")))] *)
Definition allAuthors (allArticles : list Article) : list string :=
  JS.uniq (map (fun a => JS.orUnknown (author a)) allArticles).

End NewsAnalytics.

(** The payout page, [AdminPayout]; it declares no error flag either. *)
Module AdminPayout.

Definition KEY : string := "admin-payout-articles".

Record Props := mkProps { ssrArticles : list Article }.

Record State := mkState { articles : list Article }.

Definition initial (p : Props) : State := mkState (ssrArticles p).

Definition setArticles (v : list Article) (st : State) : State := mkState v.

(** [cached.articles] once [has_articles cached] holds. *)
Definition cached_articles (cached : option CacheValue) : list Article :=
  default [] (cached ≫= c_articles).

Definition hydrate (env : Env) (p : Props) (st : State) : M State :=
  if browser env then
    let* cached := getFromIndexedDB KEY in
    if has_articles cached then
      ret (setArticles (cached_articles cached) st)
    else
      let st' := setArticles (ssrArticles p) st in
      saveToIndexedDB KEY (mkCache (Some (ssrArticles p)) None None (now env));;
      ret st'
  else ret st.

(** [[...news, ...blogs]]; spreading [undefined] throws. *)
Definition spread2 (r : NewsAndBlogs) : M (list Article) :=
  match nb_news r, nb_blogs r with
  | Some n, Some b => ret (n ++ b)
  | _, _ => throw
  end.

(** The fetcher is called whenever the browser is online; the page's own
    cache entry is not read here. *)
Definition refresh (env : Env) (st : State) : M State :=
  if browser env && online env then
    then_catch (fetchNewsAndBlogs env)
      (fun r =>
         let* fresh_arts := spread2 r in
         let st' := setArticles fresh_arts st in
         saveToIndexedDB KEY (mkCache (Some fresh_arts) None None (now env));;
         ret st')
      (ret st)
  else ret st.

Definition offline (env : Env) (st : State) : M State :=
  if browser env && negb (online env) then
    let* cached := getFromIndexedDB KEY in
    if has_articles cached then
      ret (setArticles (cached_articles cached) st)
    else ret st
  else ret st.

Inductive Effect := Hydrate | Refresh | Offline.

Definition run_effect (env : Env) (p : Props) (e : Effect) (st : State) : M State :=
  match e with
  | Hydrate => hydrate env p st
  | Refresh => refresh env st
  | Offline => offline env st
  end.

Fixpoint run_effects (env : Env) (p : Props) (es : list Effect) (st : State) : M State :=
  match es with
  | [] => ret st
  | e :: es' => let* st' := run_effect env p e st in run_effects env p es' st'
  end.

Definition mount (env : Env) (p : Props) : M State :=
  run_effects env p [Hydrate; Refresh; Offline] (initial p).

(** *** Grouping and payout *)

Definition filteredArticles (selectedAuthor selectedType : string)
    (arts : list Article) : list Article :=
  List.filter
    (fun a =>
       (bool_decide (selectedAuthor = "All")
        || bool_decide (JS.orUnknown (author a) = selectedAuthor))
       && (bool_decide (selectedType = "All")
           || bool_decide (type a = selectedType)))
    arts.

(** [`${author}|||${type}`] *)
Definition AuthorTypeKey (author type : string) : string :=
  author +:+ "|||" +:+ type.

Record Group := mkGroup {
  g_author : string;
  g_type : string;
  g_count : Z
}.

(** The object [map] of [grouped]: its entries in insertion order, which is
    the order [Object.values] lists them in (no key is an array index, every
    key contains ["|||"]). *)
Definition GroupMap : Type := list (string * Group).

Fixpoint lookup_group (key : string) (m : GroupMap) : option Group :=
  match m with
  | [] => None
  | (k, g) :: m' => if bool_decide (k = key) then Some g else lookup_group key m'
  end.

(** [if (!map[key]) map[key] = { author, type: a.type, count: 0 }] *)
Definition ensure_group (key author type : string) (m : GroupMap) : GroupMap :=
  match lookup_group key m with
  | Some _ => m
  | None => m ++ [(key, mkGroup author type 0)]
  end.

(** [count += 1] on one group. *)
Definition bump (g : Group) : Group :=
  mkGroup (g_author g) (g_type g) (g_count g + 1).

(** [map[key].count += 1] *)
Fixpoint bump_group (key : string) (m : GroupMap) : GroupMap :=
  match m with
  | [] => []
  | (k, g) :: m' =>
      if bool_decide (k = key)
      then (k, bump g) :: m'
      else (k, g) :: bump_group key m'
  end.

Definition group_step (m : GroupMap) (a : Article) : GroupMap :=
  let author := JS.orUnknown (author a) in
  let key := AuthorTypeKey author (type a) in
  bump_group key (ensure_group key author (type a) m).

Definition grouped (filtered : list Article) : GroupMap :=
  fold_left group_step filtered [].

(** The key an article is counted under, and the number of articles of a
    list that have a given key. *)
Definition keyOf (a : Article) : string :=
  AuthorTypeKey (JS.orUnknown (author a)) (type a).

Definition count_key (key : string) (arts : list Article) : Z :=
  Z.of_nat (length (List.filter (fun a => bool_decide (keyOf a = key)) arts)).

(** The number of articles with a given author and type. *)
Definition count_pair (au ty : string) (arts : list Article) : Z :=
  Z.of_nat (length (List.filter
    (fun a => bool_decide (JS.orUnknown (author a) = au)
              && bool_decide (type a = ty)) arts)).

Section Rates.
(** [Number(value)], see [JS.Number_decimal]. *)
Variable Number : string -> JS.Num.

(** [setPayoutRates] under [handleRateChange]. *)
Definition handleRateChange (author type value : string)
    (rates : gmap string JS.Num) : gmap string JS.Num :=
  let key := AuthorTypeKey author type in
  let num := Number value in
  if negb (JS.isNaN num) && JS.ge0 num then <[key := num]> rates else rates.

(** The payout-rates cell after a sequence of edits, from [{}]. *)
Definition rates_after (edits : list (string * string * string)) : gmap string JS.Num :=
  fold_left (fun rates '(a, t, v) => handleRateChange a t v rates) edits ∅.

End Rates.

(** [payoutRates[key] ?? 2] *)
Definition rateOf (payoutRates : gmap string JS.Num) (key : string) : JS.Num :=
  default (JS.ofZ 2) (payoutRates !! key).

(** One row of the table and of the three exports. *)
Record Row := mkRow {
  r_author : string;
  r_type : string;
  r_count : Z;
  r_rate : JS.Num;
  r_total : string
}.

(** [count * rate], before [toFixed]. *)
Definition total (payoutRates : gmap string JS.Num) (g : Group) : JS.Num :=
  JS.mul (JS.ofZ (g_count g))
    (rateOf payoutRates (AuthorTypeKey (g_author g) (g_type g))).

Definition row (payoutRates : gmap string JS.Num) (g : Group) : Row :=
  let key := AuthorTypeKey (g_author g) (g_type g) in
  let rate := rateOf payoutRates key in
  mkRow (g_author g) (g_type g) (g_count g) rate
    (JS.toFixed2 (JS.mul (JS.ofZ (g_count g)) rate)).

(** [Object.values(grouped).map(...)] *)
Definition rows (payoutRates : gmap string JS.Num) (m : GroupMap) : list Row :=
  map (fun kg => row payoutRates (snd kg)) m.

(** No [apiError] cell and no data-unavailable branch here either. *)
Definition unavailable (st : State) : bool := false.

(** The sum of the counts of all groups. *)
Definition count_sum (m : GroupMap) : Z :=
  fold_right (fun kg acc => g_count (snd kg) + acc) 0 m.

(** *** The filter dropdowns *)

Definition authors (articles : list Article) : list string :=
  "All" :: JS.uniq (map (fun a => JS.orUnknown (author a)) articles).

Definition types (articles : list Article) : list string :=
  "All" :: JS.uniq (map type articles).

(** *** [handleCSVExport] *)

(** The double quote character. *)
Definition dq : ascii := "034"%char.

(** The [replace] of a string cell: every double quote is written twice. *)
Fixpoint csv_escape (s : string) : string :=
  match s with
  | EmptyString => EmptyString
  | String c s' =>
      if bool_decide (c = dq) then String dq (String dq (csv_escape s'))
      else String c (csv_escape s')
  end.

(** A string cell: escaped and wrapped in double quotes. *)
Definition csv_quote (s : string) : string :=
  String dq (csv_escape s +:+ String dq EmptyString).

(** A cell of the table: a string or a number. *)
Inductive Cell :=
| CStr (s : string)
| CNum (x : JS.Num).

Fixpoint join (sep : string) (parts : list string) : string :=
  match parts with
  | [] => EmptyString
  | [x] => x
  | x :: rest => x +:+ sep +:+ join sep rest
  end.

Definition csv_headers : list Cell :=
  [CStr "Author"; CStr "Type"; CStr "Articles"; CStr "Payout Rate ($)";
   CStr "Total Payout ($)"].

(** [[author, type, count, rate, (count * rate).toFixed(2)]] *)
Definition csv_cells (r : Row) : list Cell :=
  [CStr (r_author r); CStr (r_type r); CNum (JS.ofZ (r_count r)); CNum (r_rate r);
   CStr (r_total r)].

Section Csv.
(** The text [join] writes for a number. *)
Variable numberToString : JS.Num -> string.

Definition csv_cell (c : Cell) : string :=
  match c with
  | CStr s => csv_quote s
  | CNum x => numberToString x
  end.

Definition csv_line (cells : list Cell) : string :=
  join "," (map csv_cell cells).

Definition newline : string := String "010"%char EmptyString.

Definition csvContent (payoutRates : gmap string JS.Num) (m : GroupMap) : string :=
  join newline (map csv_line (csv_headers :: map csv_cells (rows payoutRates m))).

End Csv.

(** *** [handleGoogleSheetExport] *)

Inductive PostResult :=
| PostNetworkError
| PostResponse (ok : bool).

(** The text of the blocking alert. *)
Definition alert_success : string := "All payout data exported to Google Sheet!".

Definition alert_failure (message : string) : string :=
  "Export failed: " +:+ message.

(** [`Failed to export: ${row.author} - ${row.type}`] *)
Definition export_error (r : Row) : string :=
  "Failed to export: " +:+ r_author r +:+ " - " +:+ r_type r.

Record ExportRun := mkExportRun {
  posted : list Row;
  alert : string;
  exporting : bool
}.

Section Sheets.
(** The answer of the spreadsheet endpoint to the POST of one row, and the
    message of the error a rejected [fetch] carries. *)
Variable post : Row -> PostResult.
Variable networkMessage : string.

(** The [for] loop: the rows posted, and the message of the error thrown. *)
Fixpoint post_rows (rs : list Row) : list Row * option string :=
  match rs with
  | [] => ([], None)
  | r :: rs' =>
      match post r with
      | PostNetworkError => ([r], Some networkMessage)
      | PostResponse false => ([r], Some (export_error r))
      | PostResponse true =>
          let '(sent, err) := post_rows rs' in (r :: sent, err)
      end
  end.

Definition handleGoogleSheetExport (payoutRates : gmap string JS.Num)
    (m : GroupMap) : ExportRun :=
  let '(sent, err) := post_rows (rows payoutRates m) in
  match err with
  | None => mkExportRun sent alert_success false
  | Some message => mkExportRun sent (alert_failure message) false
  end.

End Sheets.

End AdminPayout.

(** ** A reader for the quoted cells of the CSV export *)

Module CsvReader.

(** Reads the text after an opening double quote up to the closing one: a
    pair of double quotes stands for one, a single one closes the cell.
    Yields the cell and what follows it. *)
Fixpoint read_body (s : string) : option (string * string) :=
  match s with
  | EmptyString => None
  | String c s' =>
      if bool_decide (c = AdminPayout.dq) then
        match s' with
        | EmptyString => Some (EmptyString, EmptyString)
        | String c2 s'' =>
            if bool_decide (c2 = AdminPayout.dq)
            then match read_body s'' with
                 | Some (cell, rest) => Some (String AdminPayout.dq cell, rest)
                 | None => None
                 end
            else Some (EmptyString, s')
        end
      else match read_body s' with
           | Some (cell, rest) => Some (String c cell, rest)
           | None => None
           end
  end.

Definition read_quoted (s : string) : option (string * string) :=
  match s with
  | String c s' => if bool_decide (c = AdminPayout.dq) then read_body s' else None
  | EmptyString => None
  end.

(** [rest] does not begin with a double quote. *)
Definition no_leading_quote (rest : string) : Prop :=
  match rest with
  | String c _ => c <> AdminPayout.dq
  | EmptyString => True
  end.

End CsvReader.

(** ** The session callback, [MyAppContent] and [src/components/Navbar.tsx] *)

Module Auth.

Record User := mkUser {
  name : option string;
  email : option string;
  image : option string;
  role : option string
}.

Record Session := mkSession { user : option User }.

Definition ADMIN_EMAIL : string := "aashishkumar1812@gmail.com".

(** [callbacks.session]: the role is derived from the email. *)
Definition sessionCallback (session : Session) : Session :=
  match user session with
  | Some u =>
      mkSession (Some (mkUser (name u) (email u) (image u)
        (Some (if bool_decide (email u = Some ADMIN_EMAIL) then "admin" else "user"))))
  | None => session
  end.

End Auth.

Module Navbar.

(** [user?.role === "admin"] *)
Definition isAdmin (session : option Auth.Session) : bool :=
  bool_decide (((session ≫= Auth.user) ≫= Auth.role) = Some "admin").

(** [!!session] *)
Definition isSignedIn (session : option Auth.Session) : bool :=
  bool_decide (is_Some session).

(** The [href]s of the links the bar shows, left to right. *)
Definition links (session : option Auth.Session) : list string :=
  ["/"]
  ++ (if isSignedIn session
      then ["/news-analytics"] ++ (if isAdmin session then ["/admin-payout"] else [])
      else []).

(** [session.user?.name || session.user?.email], beside the logout button;
    [None] stands for the "Not signed in" label. *)
Definition label (session : option Auth.Session) : option (option string) :=
  match session with
  | Some s =>
      Some (match Auth.user s ≫= Auth.name with
            | Some (String c n) => Some (String c n)
            | _ => Auth.user s ≫= Auth.email
            end)
  | None => None
  end.

End Navbar.

Module App.

Inductive Status := loading | authenticated | unauthenticated.

(** What [MyAppContent] renders around the page: the links of the bar, or
    nothing when the bar is left out. *)
Definition MyAppContent (status : Status) (session : option Auth.Session)
    : option (list string) :=
  match status, session with
  | loading, _ => None
  | _, None => None
  | _, Some s => Some (Navbar.links (Some s))
  end.

End App.

(** ** The filtering predicate in the words of the specification *)

Module FilterSpec.

(** [t] occurs in [s]. *)
Definition contains (s t : string) : Prop :=
  exists pre post, s = pre +:+ t +:+ post.

(** Some substring of [s] equals [t] up to the case of its letters. *)
Definition contains_ci (s t : string) : Prop :=
  exists pre u post,
    s = pre +:+ u +:+ post /\ JS.toLowerCase u = JS.toLowerCase t.

Definition search_ok (f : FiltersSlice.FiltersState) (a : Article) : Prop :=
  contains_ci (title a) (FiltersSlice.searchTerm f)
  \/ exists d, description a = Some d /\ contains_ci d (FiltersSlice.searchTerm f).

(** The publication date is a valid date on or after the bound. *)
Definition on_or_after (newDate : string -> JS.Date) (pub bound : string) : Prop :=
  exists x y, newDate pub = Some x /\ newDate bound = Some y /\ y <= x.

Definition on_or_before (newDate : string -> JS.Date) (pub bound : string) : Prop :=
  exists x y, newDate pub = Some x /\ newDate bound = Some y /\ x <= y.

Definition dates_ok (newDate : string -> JS.Date)
    (f : FiltersSlice.FiltersState) (a : Article) : Prop :=
  (FiltersSlice.startDate f <> "" ->
     on_or_after newDate (publishedAt a) (FiltersSlice.startDate f))
  /\ (FiltersSlice.endDate f <> "" ->
     on_or_before newDate (publishedAt a) (FiltersSlice.endDate f)).

(** The author with only an absent one normalised to ["Unknown"]. *)
Definition author_absent_unknown (a : Article) : string :=
  default "Unknown" (author a).

(** The author with an absent or empty one normalised to ["Unknown"]. *)
Definition author_falsy_unknown (a : Article) : string :=
  match author a with
  | None => "Unknown"
  | Some s => if bool_decide (s = "") then "Unknown" else s
  end.

(** The predicate as the specification words it. *)
Definition admits_as_stated (newDate : string -> JS.Date)
    (f : FiltersSlice.FiltersState) (a : Article) : Prop :=
  search_ok f a
  /\ (FiltersSlice.selectedAuthor f = "All"
      \/ author_absent_unknown a = FiltersSlice.selectedAuthor f)
  /\ dates_ok newDate f a.

(** The same, with the empty author treated as an absent one. *)
Definition admits (newDate : string -> JS.Date)
    (f : FiltersSlice.FiltersState) (a : Article) : Prop :=
  search_ok f a
  /\ (FiltersSlice.selectedAuthor f = "All"
      \/ author_falsy_unknown a = FiltersSlice.selectedAuthor f)
  /\ dates_ok newDate f a.

End FilterSpec.

(** ** Sample inputs *)

Module Sample.

Definition raw (t : string) (a : option string) : RawItem :=
  mkRawItem t None "https://example.org/story" None a "2024-03-01T00:00:00Z" None.

Definition art (ty t : string) (a : option string) : Article :=
  mapArticle ty (raw t a).

(** The provider answers every request with one headline. *)
Definition net_ok : Request -> HttpResult :=
  fun _ => Response true (BodyData (Some [raw "Fed raises rates" (Some "Jane")])).

(** The provider answers with an error status and an error object, which
    has no [articles] member. *)
Definition net_refused : Request -> HttpResult :=
  fun _ => Response false (BodyData None).

(** No connection: [fetch] rejects. *)
Definition net_down : Request -> HttpResult :=
  fun _ => NetworkError.

(** A browser that reports connectivity, at clock [t]. *)
Definition client (t : Z) (net : Request -> HttpResult) : Env :=
  mkEnv true true t net.

(** Server-side rendering: no [window]. *)
Definition server (net : Request -> HttpResult) : Env :=
  mkEnv false false 0 net.

Definition empty_world : World := mkWorld ∅ [].

Definition old_news : list Article := [art "news" "Old story" (Some "Jane")].

(** Entries written at clock 0. *)
Definition pair_entry : CacheValue := mkCache None (Some old_news) (Some []) 0.
Definition flat_entry : CacheValue := mkCache (Some old_news) None None 0.

Definition world_with (key : string) (c : CacheValue) : World :=
  mkWorld {[ key := c ]} [].

Definition home_props : Home.Props := Home.mkProps [] [].
Definition analytics_props : NewsAnalytics.Props := NewsAnalytics.mkProps [] [].
Definition payout_props : AdminPayout.Props := AdminPayout.mkProps [].

(** The article and the filters of the specification's filtering example. *)
Definition fed_article : Article :=
  mkArticle "Fed raises rates" None "https://example.org/fed" None (Some "Jane")
    "2024-03-01T00:00:00Z" None "news".

Definition jane_filters : FiltersSlice.FiltersState :=
  FiltersSlice.mkFilters FiltersSlice.news "fed" "Jane" "2024-02-01" "2024-04-01".

Definition john_filters : FiltersSlice.FiltersState :=
  FiltersSlice.setSelectedAuthor jane_filters "John".

(** An article whose author is the empty string, and the filters that
    select the author ["Unknown"]. *)
Definition anonymous_article : Article :=
  mkArticle "Markets today" None "https://example.org/markets" None (Some "")
    "2024-03-01T00:00:00Z" None "news".

Definition unknown_filters : FiltersSlice.FiltersState :=
  FiltersSlice.setSelectedAuthor FiltersSlice.initialState "Unknown".

(** The articles of the specification's grouping example. *)
Definition by_jane (ty : string) : Article :=
  mkArticle "Story" None "https://example.org/story" None (Some "Jane")
    "2024-03-01T00:00:00Z" None ty.

Definition jane_articles : list Article :=
  [by_jane "news"; by_jane "news"; by_jane "blogs"].

(** Edits of the rate inputs: one accepted, then a negative one and a
    non-numeric one. *)
Definition rate_edits : list (string * string * string) :=
  [("Jane", "news", "3"); ("Jane", "news", "-1"); ("Jane", "blogs", "abc")].

End Sample.

(** * Properties *)

(** ** The effect monad *)

Ltac run_eff :=
  unfold then_catch, bind, ret, throw, getFromIndexedDB, saveToIndexedDB,
    fetch, json_articles in *; simpl in *.

Lemma fresh_lt env c : fresh env c = true <-> now env - c_timestamp c < HOUR.
Proof. unfold fresh. apply Z.ltb_lt. Qed.

Lemma fresh_ge env c : fresh env c = false <-> HOUR <= now env - c_timestamp c.
Proof. unfold fresh. rewrite Z.ltb_ge. reflexivity. Qed.

(** ** The two fetchers *)

Section Fetchers.
Variable env : Env.
Variable w : World.

Lemma fetchNews_hit c :
  browser env = true -> store w !! "newsapi_news" = Some c -> fresh env c = true ->
  fetchNews env w = (Ok (c_articles c), w).
Proof.
  intros Hb Hc Hf. unfold fetchNews. rewrite Hb. run_eff. rewrite Hc, Hf. reflexivity.
Qed.

Lemma fetchNews_stale c :
  browser env = true -> store w !! "newsapi_news" = Some c -> fresh env c = false ->
  fetchNews env w = fetchNews_remote env w.
Proof.
  intros Hb Hc Hf. unfold fetchNews. rewrite Hb. run_eff. rewrite Hc, Hf. reflexivity.
Qed.

Lemma fetchNews_miss :
  browser env = false \/ store w !! "newsapi_news" = None ->
  fetchNews env w = fetchNews_remote env w.
Proof.
  intros [Hb | Hc]; unfold fetchNews.
  - rewrite Hb. reflexivity.
  - destruct (browser env); run_eff; [rewrite Hc |]; reflexivity.
Qed.

(** One call of the remote part issues exactly one request. *)
Lemma fetchNews_remote_requests :
  requests (snd (fetchNews_remote env w)) = requests w ++ [TopHeadlines].
Proof.
  unfold fetchNews_remote. run_eff.
  destruct (network env TopHeadlines) as [| [] [| arts]]; simpl; try reflexivity.
  destruct (browser env); reflexivity.
Qed.

Lemma fetchNews_remote_not_ok body :
  network env TopHeadlines = Response false body ->
  fetchNews_remote env w = (Throw, mkWorld (store w) (requests w ++ [TopHeadlines])).
Proof. intros H. unfold fetchNews_remote. run_eff. rewrite H. reflexivity. Qed.

Lemma fetchNewsAndBlogs_hit c :
  browser env = true -> store w !! "newsapi_news_blogs" = Some c -> fresh env c = true ->
  fetchNewsAndBlogs env w = (Ok (mkNB (c_news c) (c_blogs c)), w).
Proof.
  intros Hb Hc Hf. unfold fetchNewsAndBlogs. rewrite Hb. run_eff. rewrite Hc, Hf.
  reflexivity.
Qed.

Lemma fetchNewsAndBlogs_stale c :
  browser env = true -> store w !! "newsapi_news_blogs" = Some c -> fresh env c = false ->
  fetchNewsAndBlogs env w = fetchNewsAndBlogs_remote env w.
Proof.
  intros Hb Hc Hf. unfold fetchNewsAndBlogs. rewrite Hb. run_eff. rewrite Hc, Hf.
  reflexivity.
Qed.

Lemma fetchNewsAndBlogs_miss :
  browser env = false \/ store w !! "newsapi_news_blogs" = None ->
  fetchNewsAndBlogs env w = fetchNewsAndBlogs_remote env w.
Proof.
  intros [Hb | Hc]; unfold fetchNewsAndBlogs.
  - rewrite Hb. reflexivity.
  - destruct (browser env); run_eff; [rewrite Hc |]; reflexivity.
Qed.

(** The remote part starts with the technology request, and issues at most
    the two category requests. *)
Lemma fetchNewsAndBlogs_remote_requests :
  requests (snd (fetchNewsAndBlogs_remote env w))
    = requests w ++ [TopHeadlinesIn "technology"]
  \/ requests (snd (fetchNewsAndBlogs_remote env w))
    = requests w ++ [TopHeadlinesIn "technology"; TopHeadlinesIn "general"].
Proof.
  unfold fetchNewsAndBlogs_remote. run_eff.
  destruct (network env (TopHeadlinesIn "technology")) as [| ok1 [| d1]]; simpl; auto.
  destruct (network env (TopHeadlinesIn "general")) as [| ok2 [| d2]]; simpl;
    rewrite <- ?app_assoc; simpl; auto.
  destruct (browser env); simpl; auto.
Qed.

(** The status of the two responses does not enter the result. *)
Lemma fetchNewsAndBlogs_remote_any_status ok1 ok2 d1 d2 :
  network env (TopHeadlinesIn "technology") = Response ok1 (BodyData d1) ->
  network env (TopHeadlinesIn "general") = Response ok2 (BodyData d2) ->
  fetchNewsAndBlogs_remote env w =
    (Ok (mkNB (Some (mapArticles "news" d1)) (Some (mapArticles "blogs" d2))),
     mkWorld
       (if browser env
        then <["newsapi_news_blogs" :=
               mkCache None (Some (mapArticles "news" d1))
                 (Some (mapArticles "blogs" d2)) (now env)]> (store w)
        else store w)
       (requests w ++ [TopHeadlinesIn "technology"; TopHeadlinesIn "general"])).
Proof.
  intros H1 H2. unfold fetchNewsAndBlogs_remote. run_eff. rewrite H1. simpl.
  rewrite H2. simpl. rewrite <- app_assoc. simpl.
  destruct (browser env); reflexivity.
Qed.

(** A call that fails leaves the store as it was. *)
Lemma fetchNewsAndBlogs_throw_store w' :
  fetchNewsAndBlogs env w = (Throw, w') -> store w' = store w.
Proof.
  unfold fetchNewsAndBlogs, fetchNewsAndBlogs_remote. run_eff.
  destruct (browser env); simpl.
  - destruct (store w !! "newsapi_news_blogs") as [c |]; [destruct (fresh env c) |];
      try discriminate;
      destruct (network env (TopHeadlinesIn "technology")) as [| ok1 [| d1]]; simpl;
      try (intros [= <-]; reflexivity);
      destruct (network env (TopHeadlinesIn "general")) as [| ok2 [| d2]]; simpl;
      try (intros [= <-]; reflexivity); discriminate.
  - destruct (network env (TopHeadlinesIn "technology")) as [| ok1 [| d1]]; simpl;
      try (intros [= <-]; reflexivity);
      destruct (network env (TopHeadlinesIn "general")) as [| ok2 [| d2]]; simpl;
      try (intros [= <-]; reflexivity); discriminate.
Qed.

End Fetchers.

Lemma mapArticles_type ty arts :
  Forall (fun a => type a = ty) (mapArticles ty arts).
Proof.
  unfold mapArticles. destruct arts as [l |]; simpl; [| constructor].
  induction l; simpl; constructor; auto.
Qed.

(** ** The page orchestrators *)

Lemma has_news_blogs_true cached :
  has_news_blogs cached = true <->
  exists c n b, cached = Some c /\ c_news c = Some n /\ c_blogs c = Some b.
Proof.
  unfold has_news_blogs. split.
  - destruct cached as [c |]; [| discriminate].
    destruct (c_news c) as [n |] eqn:Hn, (c_blogs c) as [b |] eqn:Hb;
      try (intros _; exists c, n, b; auto); simpl;
      rewrite ?andb_false_r; try discriminate;
      intros H; apply andb_prop in H as [H1 H2];
      apply bool_decide_eq_true in H1, H2; destruct H1, H2; discriminate.
  - intros (c & n & b & -> & Hn & Hb). rewrite Hn, Hb. reflexivity.
Qed.

Lemma has_news_blogs_Some c n b :
  c_news c = Some n -> c_blogs c = Some b -> has_news_blogs (Some c) = true.
Proof. intros Hn Hb. apply has_news_blogs_true. exists c, n, b. auto. Qed.


#[local] Arguments has_news_blogs : simpl never.
#[local] Arguments has_articles : simpl never.

Section HomePage.
Import Home.
Variables (env : Env) (p : Props).

Lemma Home_hydrate_cached st w c n b :
  browser env = true ->
  store w !! KEY = Some c -> c_news c = Some n -> c_blogs c = Some b ->
  hydrate env p st w =
    (Ok (mkState (Some n) (Some b) (apiError st) (Some (mkNB (Some n) (Some b)))), w).
Proof.
  intros Hb Hc Hn Hbl. unfold hydrate. rewrite Hb. run_eff. rewrite Hc.
  rewrite (has_news_blogs_Some c n b Hn Hbl). simpl. rewrite Hn, Hbl. reflexivity.
Qed.

Lemma Home_hydrate_uncached st w :
  browser env = true -> has_news_blogs (store w !! KEY) = false ->
  hydrate env p st w =
    (Ok (mkState (Some (ssrNews p)) (Some (ssrBlogs p)) (apiError st) None),
     mkWorld
       (<[KEY := mkCache None (Some (ssrNews p)) (Some (ssrBlogs p)) (now env)]> (store w))
       (requests w)).
Proof.
  intros Hb Hc. unfold hydrate. rewrite Hb. run_eff. rewrite Hc. reflexivity.
Qed.

(** With a cached batch in the store no effect touches the store or the
    network. *)
Lemma Home_refresh_cached st w :
  has_news_blogs (store w !! KEY) = true -> refresh env st w = (Ok st, w).
Proof.
  intros Hc. unfold refresh. destruct (browser env && online env); [| reflexivity].
  run_eff. rewrite Hc. reflexivity.
Qed.

Lemma Home_effect_cached e st w c n b :
  browser env = true ->
  store w !! KEY = Some c -> c_news c = Some n -> c_blogs c = Some b ->
  arrays st ->
  exists st', run_effect env p e st w = (Ok st', w)
    /\ arrays st'
    /\ (e = Hydrate \/ adopted n b st -> adopted n b st').
Proof.
  intros Hb Hc Hn Hbl [[n0 Hn0] [b0 Hb0]].
  pose proof (has_news_blogs_Some c n b Hn Hbl) as Hv.
  destruct e; simpl.
  - rewrite (Home_hydrate_cached st w c n b) by assumption.
    eexists; split; [reflexivity |]. unfold arrays, adopted; simpl. eauto.
  - rewrite Home_refresh_cached by (rewrite Hc; exact Hv).
    eexists; split; [reflexivity |]. split; [split; eauto |].
    intros [? | ?]; [discriminate | assumption].
  - unfold offline. destruct (browser env && negb (online env)).
    + run_eff. rewrite Hc, Hv. simpl. rewrite Hn, Hbl.
      eexists; split; [reflexivity |]. unfold arrays, adopted; simpl.
      split; [eauto |]. intros [? | (? & ? & ?)]; [discriminate | auto].
    + eexists; split; [reflexivity |]. split; [split; eauto |].
      intros [? | ?]; [discriminate | assumption].
  - unfold emptyFallback, both_empty. rewrite Hn0, Hb0, Hb. run_eff.
    destruct n0 as [| ? ?]; [destruct b0 as [| ? ?] |]; simpl;
      try (eexists; split; [reflexivity |]; split; [split; eauto |];
           intros [? | ?]; [discriminate | assumption]).
    rewrite Hc, Hv. simpl. rewrite Hn, Hbl.
    eexists; split; [reflexivity |]. unfold arrays, adopted; simpl.
    rewrite Hn0, Hb0. split; [eauto |].
    intros [? | (? & ? & ?)]; [discriminate | auto].
Qed.

Lemma Home_effects_cached es : forall st w c n b,
  browser env = true ->
  store w !! KEY = Some c -> c_news c = Some n -> c_blogs c = Some b ->
  arrays st ->
  exists st', run_effects env p es st w = (Ok st', w)
    /\ (In Hydrate es \/ adopted n b st -> adopted n b st').
Proof.
  induction es as [| e es IH]; intros st w c n b Hb Hc Hn Hbl Harr; simpl.
  - exists st. split; [reflexivity |]. intros [[] | H]; exact H.
  - destruct (Home_effect_cached e st w c n b Hb Hc Hn Hbl Harr)
      as (st1 & Hrun & Harr1 & Had1).
    destruct (IH st1 w c n b Hb Hc Hn Hbl Harr1) as (st2 & Hrun2 & Had2).
    exists st2. split.
    + unfold bind. rewrite Hrun. exact Hrun2.
    + intros [[-> | Hin] | Had]; apply Had2; auto.
Qed.

Lemma Home_refresh_failure st w w' :
  browser env = true -> online env = true ->
  has_news_blogs (store w !! KEY) = false ->
  fetchNewsAndBlogs env w = (Throw, w') ->
  refresh env st w = (Ok (setApiError true st), w').
Proof.
  intros Hb Ho Hc Hf. unfold refresh. rewrite Hb, Ho. simpl.
  unfold bind at 1, getFromIndexedDB. rewrite Hc. simpl.
  unfold then_catch, bind. rewrite Hf. reflexivity.
Qed.

End HomePage.

Section AnalyticsPage.
Import NewsAnalytics.
Variables (env : Env) (p : Props).

Lemma Analytics_hydrate_cached st w c n b :
  browser env = true ->
  store w !! KEY = Some c -> c_news c = Some n -> c_blogs c = Some b ->
  hydrate env p st w = (Ok (mkState (Some n) (Some b)), w).
Proof.
  intros Hb Hc Hn Hbl. unfold hydrate. rewrite Hb. run_eff. rewrite Hc.
  rewrite (has_news_blogs_Some c n b Hn Hbl). simpl. rewrite Hn, Hbl. reflexivity.
Qed.

Lemma Analytics_hydrate_uncached st w :
  browser env = true -> has_news_blogs (store w !! KEY) = false ->
  hydrate env p st w =
    (Ok (mkState (Some (ssrNews p)) (Some (ssrBlogs p))),
     mkWorld
       (<[KEY := mkCache None (Some (ssrNews p)) (Some (ssrBlogs p)) (now env)]> (store w))
       (requests w)).
Proof.
  intros Hb Hc. unfold hydrate. rewrite Hb. run_eff. rewrite Hc. reflexivity.
Qed.

Lemma Analytics_effect_cached e st w c n b :
  browser env = true ->
  store w !! KEY = Some c -> c_news c = Some n -> c_blogs c = Some b ->
  exists st', run_effect env p e st w = (Ok st', w)
    /\ (e = Hydrate \/ st = mkState (Some n) (Some b) -> st' = mkState (Some n) (Some b)).
Proof.
  intros Hb Hc Hn Hbl.
  pose proof (has_news_blogs_Some c n b Hn Hbl) as Hv.
  destruct e; simpl.
  - rewrite (Analytics_hydrate_cached st w c n b) by assumption. eauto.
  - unfold refresh. destruct (browser env && online env).
    + run_eff. rewrite Hc, Hv. simpl. eexists; split; [reflexivity |].
      intros [? | ?]; [discriminate | assumption].
    + eexists; split; [reflexivity |]. intros [? | ?]; [discriminate | assumption].
  - unfold offline. destruct (browser env && negb (online env)).
    + run_eff. rewrite Hc, Hv. simpl. rewrite Hn, Hbl. eauto.
    + eexists; split; [reflexivity |]. intros [? | ?]; [discriminate | assumption].
Qed.

Lemma Analytics_effects_cached es : forall st w c n b,
  browser env = true ->
  store w !! KEY = Some c -> c_news c = Some n -> c_blogs c = Some b ->
  exists st', run_effects env p es st w = (Ok st', w)
    /\ (In Hydrate es \/ st = mkState (Some n) (Some b) -> st' = mkState (Some n) (Some b)).
Proof.
  induction es as [| e es IH]; intros st w c n b Hb Hc Hn Hbl; simpl.
  - exists st. split; [reflexivity |]. intros [[] | H]; exact H.
  - destruct (Analytics_effect_cached e st w c n b Hb Hc Hn Hbl) as (st1 & Hrun & Had1).
    destruct (IH st1 w c n b Hb Hc Hn Hbl) as (st2 & Hrun2 & Had2).
    exists st2. split.
    + unfold bind. rewrite Hrun. exact Hrun2.
    + intros [[-> | Hin] | Had]; apply Had2; auto.
Qed.

Lemma Analytics_refresh_failure st w w' :
  browser env = true -> online env = true ->
  has_news_blogs (store w !! KEY) = false ->
  fetchNewsAndBlogs env w = (Throw, w') ->
  refresh env st w = (Ok st, w').
Proof.
  intros Hb Ho Hc Hf. unfold refresh. rewrite Hb, Ho. simpl.
  unfold bind at 1, getFromIndexedDB. rewrite Hc. simpl.
  unfold then_catch, bind. rewrite Hf. reflexivity.
Qed.

End AnalyticsPage.

Section PayoutPage.
Import AdminPayout.
Variables (env : Env) (p : Props).

Lemma Payout_hydrate_cached st w c a l :
  browser env = true ->
  store w !! KEY = Some c -> c_articles c = Some (a :: l) ->
  hydrate env p st w = (Ok (mkState (a :: l)), w).
Proof.
  intros Hb Hc Ha. unfold hydrate. rewrite Hb. run_eff. rewrite Hc. simpl.
  unfold has_articles, cached_articles. simpl. rewrite Ha. reflexivity.
Qed.

Lemma Payout_hydrate_uncached st w :
  browser env = true -> has_articles (store w !! KEY) = false ->
  hydrate env p st w =
    (Ok (mkState (ssrArticles p)),
     mkWorld (<[KEY := mkCache (Some (ssrArticles p)) None None (now env)]> (store w))
       (requests w)).
Proof.
  intros Hb Hc. unfold hydrate. rewrite Hb. run_eff. rewrite Hc. reflexivity.
Qed.

Lemma Payout_refresh_failure st w w' :
  browser env = true -> online env = true ->
  fetchNewsAndBlogs env w = (Throw, w') ->
  refresh env st w = (Ok st, w').
Proof.
  intros Hb Ho Hf. unfold refresh. rewrite Hb, Ho. simpl.
  unfold then_catch, bind. rewrite Hf. reflexivity.
Qed.

(** Online, the payout page always reaches the fetcher. *)
Lemma Payout_refresh_requests st w :
  browser env = true -> online env = true ->
  store w !! "newsapi_news_blogs" = None ->
  exists rest,
    requests (snd (refresh env st w))
      = requests w ++ TopHeadlinesIn "technology" :: rest.
Proof.
  intros Hb Ho Hc. unfold refresh. rewrite Hb, Ho. simpl.
  unfold then_catch, bind.
  rewrite (fetchNewsAndBlogs_miss env w (or_intror Hc)).
  pose proof (fetchNewsAndBlogs_remote_requests env w) as Hr.
  destruct (fetchNewsAndBlogs_remote env w) as [[r |] w1]; simpl in *.
  - unfold spread2. destruct (nb_news r), (nb_blogs r); run_eff;
      destruct Hr as [-> | ->]; eauto.
  - destruct Hr as [-> | ->]; eauto.
Qed.

End PayoutPage.

(** * The claims *)

(** ** C1 *)

(** C1, as the code has it: both fetchers enforce the one-hour window.  With
    an entry under its key, [fetchNews] as well as [fetchNewsAndBlogs] returns
    the cached batch, untouched store and no request, exactly when the entry
    is younger than one hour, and goes to the network when it is one hour old
    or older. *)
Theorem freshness_window_in_both_fetchers (env : Env) (w : World) (c : CacheValue) :
  browser env = true ->
  (store w !! "newsapi_news" = Some c ->
     (now env - c_timestamp c < HOUR ->
        fetchNews env w = (Ok (c_articles c), w))
     /\ (HOUR <= now env - c_timestamp c ->
        fetchNews env w = fetchNews_remote env w
        /\ requests (snd (fetchNews env w)) = requests w ++ [TopHeadlines]))
  /\ (store w !! "newsapi_news_blogs" = Some c ->
     (now env - c_timestamp c < HOUR ->
        fetchNewsAndBlogs env w = (Ok (mkNB (c_news c) (c_blogs c)), w))
     /\ (HOUR <= now env - c_timestamp c ->
        fetchNewsAndBlogs env w = fetchNewsAndBlogs_remote env w
        /\ exists rest,
             requests (snd (fetchNewsAndBlogs env w))
               = requests w ++ TopHeadlinesIn "technology" :: rest)).
Proof.
  intros Hb. split; intros Hc; split; intros Hage.
  - apply fetchNews_hit; [assumption .. | now apply fresh_lt].
  - apply fresh_ge in Hage.
    rewrite (fetchNews_stale env w c Hb Hc Hage). split; [reflexivity |].
    apply fetchNews_remote_requests.
  - apply fetchNewsAndBlogs_hit; [assumption .. | now apply fresh_lt].
  - apply fresh_ge in Hage.
    rewrite (fetchNewsAndBlogs_stale env w c Hb Hc Hage). split; [reflexivity |].
    destruct (fetchNewsAndBlogs_remote_requests env w) as [-> | ->]; eauto.
Qed.

(** A one-hour-old pair entry: the dual-category fetcher goes to the network. *)
Lemma freshness_window_in_both_fetchers_witness :
  fetchNewsAndBlogs (Sample.client HOUR Sample.net_ok)
    (Sample.world_with "newsapi_news_blogs" Sample.pair_entry)
  = fetchNewsAndBlogs_remote (Sample.client HOUR Sample.net_ok)
      (Sample.world_with "newsapi_news_blogs" Sample.pair_entry).
Proof.
  destruct (freshness_window_in_both_fetchers (Sample.client HOUR Sample.net_ok)
              (Sample.world_with "newsapi_news_blogs" Sample.pair_entry)
              Sample.pair_entry eq_refl) as [_ H].
  destruct (H eq_refl) as [_ Hstale].
  apply Hstale. vm_compute. discriminate.
Defined.

(** C1 as stated fails: with a pair entry exactly one hour old in the store,
    [fetchNewsAndBlogs] does not return that entry; it issues both category
    requests and resolves to the provider's articles. *)
Lemma fetchNewsAndBlogs_consults_timestamp :
  let env := Sample.client HOUR Sample.net_ok in
  let w := Sample.world_with "newsapi_news_blogs" Sample.pair_entry in
  store w !! "newsapi_news_blogs" = Some Sample.pair_entry
  /\ fst (fetchNewsAndBlogs env w)
       <> Ok (mkNB (c_news Sample.pair_entry) (c_blogs Sample.pair_entry))
  /\ fst (fetchNewsAndBlogs env w)
       = Ok (mkNB (Some [Sample.art "news" "Fed raises rates" (Some "Jane")])
               (Some [Sample.art "blogs" "Fed raises rates" (Some "Jane")]))
  /\ requests (snd (fetchNewsAndBlogs env w))
       = [TopHeadlinesIn "technology"; TopHeadlinesIn "general"].
Proof.
  cbv zeta. split; [reflexivity |].
  assert (E : fst (fetchNewsAndBlogs (Sample.client HOUR Sample.net_ok)
                     (Sample.world_with "newsapi_news_blogs" Sample.pair_entry))
              = Ok (mkNB (Some [Sample.art "news" "Fed raises rates" (Some "Jane")])
                      (Some [Sample.art "blogs" "Fed raises rates" (Some "Jane")])))
    by reflexivity.
  split; [rewrite E; discriminate |]. split; [exact E | reflexivity].
Qed.

(** ** C2 *)

(** The single-category fetcher does check the status: a non-success response
    rejects after exactly one request, and nothing is stored. *)
Lemma fetchNews_non_success_throws env w body :
  network env TopHeadlines = Response false body ->
  browser env = false \/ store w !! "newsapi_news" = None ->
  fetchNews env w = (Throw, mkWorld (store w) (requests w ++ [TopHeadlines])).
Proof.
  intros Hnet Hmiss. rewrite (fetchNews_miss env w Hmiss).
  now apply fetchNews_remote_not_ok with (body := body).
Qed.

(** C2 at the failing input.  The provider answers both category requests
    with an error status and an error object.  [fetchNews] rejects after one
    request; [fetchNewsAndBlogs] resolves to two empty collections, on the
    server and in the browser, where it also stores the empty batch as the
    fresh cache entry. *)
Theorem fetchNewsAndBlogs_resolves_on_non_success :
  fetchNews (Sample.server Sample.net_refused) Sample.empty_world
    = (Throw, mkWorld ∅ [TopHeadlines])
  /\ fetchNewsAndBlogs (Sample.server Sample.net_refused) Sample.empty_world
    = (Ok (mkNB (Some []) (Some [])),
       mkWorld ∅ [TopHeadlinesIn "technology"; TopHeadlinesIn "general"])
  /\ fetchNewsAndBlogs (Sample.client 5 Sample.net_refused) Sample.empty_world
    = (Ok (mkNB (Some []) (Some [])),
       mkWorld {[ "newsapi_news_blogs" := mkCache None (Some []) (Some []) 5 ]}
         [TopHeadlinesIn "technology"; TopHeadlinesIn "general"]).
Proof.
  split; [| split].
  - apply (fetchNews_non_success_throws (Sample.server Sample.net_refused)
             Sample.empty_world (BodyData None)); [reflexivity | left; reflexivity].
  - rewrite fetchNewsAndBlogs_miss by (left; reflexivity).
    apply (fetchNewsAndBlogs_remote_any_status (Sample.server Sample.net_refused)
             Sample.empty_world false false None None); reflexivity.
  - rewrite fetchNewsAndBlogs_miss by (right; reflexivity).
    apply (fetchNewsAndBlogs_remote_any_status (Sample.client 5 Sample.net_refused)
             Sample.empty_world false false None None); reflexivity.
Qed.

(** ** C3 *)

(** C3: in a browser, the hydration step of each page adopts a valid cached
    batch as it is, whatever its timestamp and the clock, and leaves the store
    and the network alone; without a valid cached batch it adopts the
    server-rendered batch and stores it under the page's key at the current
    clock. *)
Theorem hydration_adopts_cache_or_ssr (env : Env) (w : World) :
  browser env = true ->
  (forall p st,
     (forall c n b,
        store w !! Home.KEY = Some c -> c_news c = Some n -> c_blogs c = Some b ->
        Home.hydrate env p st w
        = (Ok (Home.mkState (Some n) (Some b) (Home.apiError st)
                 (Some (mkNB (Some n) (Some b)))), w))
     /\ (has_news_blogs (store w !! Home.KEY) = false ->
        Home.hydrate env p st w
        = (Ok (Home.mkState (Some (Home.ssrNews p)) (Some (Home.ssrBlogs p))
                 (Home.apiError st) None),
           mkWorld
             (<[Home.KEY := mkCache None (Some (Home.ssrNews p))
                              (Some (Home.ssrBlogs p)) (now env)]> (store w))
             (requests w))))
  /\ (forall p st,
     (forall c n b,
        store w !! NewsAnalytics.KEY = Some c -> c_news c = Some n -> c_blogs c = Some b ->
        NewsAnalytics.hydrate env p st w
        = (Ok (NewsAnalytics.mkState (Some n) (Some b)), w))
     /\ (has_news_blogs (store w !! NewsAnalytics.KEY) = false ->
        NewsAnalytics.hydrate env p st w
        = (Ok (NewsAnalytics.mkState (Some (NewsAnalytics.ssrNews p))
                 (Some (NewsAnalytics.ssrBlogs p))),
           mkWorld
             (<[NewsAnalytics.KEY := mkCache None (Some (NewsAnalytics.ssrNews p))
                                       (Some (NewsAnalytics.ssrBlogs p)) (now env)]>
                (store w))
             (requests w))))
  /\ (forall p st,
     (forall c a l,
        store w !! AdminPayout.KEY = Some c -> c_articles c = Some (a :: l) ->
        AdminPayout.hydrate env p st w = (Ok (AdminPayout.mkState (a :: l)), w))
     /\ (has_articles (store w !! AdminPayout.KEY) = false ->
        AdminPayout.hydrate env p st w
        = (Ok (AdminPayout.mkState (AdminPayout.ssrArticles p)),
           mkWorld
             (<[AdminPayout.KEY := mkCache (Some (AdminPayout.ssrArticles p))
                                     None None (now env)]> (store w))
             (requests w)))).
Proof.
  intros Hb. repeat split; intros.
  - now apply Home_hydrate_cached with (c := c).
  - now apply Home_hydrate_uncached.
  - now apply Analytics_hydrate_cached with (c := c).
  - now apply Analytics_hydrate_uncached.
  - now apply Payout_hydrate_cached with (c := c).
  - now apply Payout_hydrate_uncached.
Qed.

(** The dashboard adopts an entry written two hours before the clock. *)
Lemma hydration_adopts_cache_or_ssr_witness :
  Home.hydrate (Sample.client (2 * HOUR) Sample.net_ok) Sample.home_props
    (Home.initial Sample.home_props)
    (Sample.world_with Home.KEY Sample.pair_entry)
  = (Ok (Home.mkState (Some Sample.old_news) (Some []) false
           (Some (mkNB (Some Sample.old_news) (Some [])))),
     Sample.world_with Home.KEY Sample.pair_entry).
Proof.
  destruct (hydration_adopts_cache_or_ssr (Sample.client (2 * HOUR) Sample.net_ok)
              (Sample.world_with Home.KEY Sample.pair_entry) eq_refl) as [H _].
  destruct (H Sample.home_props (Home.initial Sample.home_props)) as [Hc _].
  apply (Hc Sample.pair_entry Sample.old_news []); reflexivity.
Defined.

(** ** C4 *)

(** Online, the refresh step of the payout page runs the fetcher, whatever
    the store holds under the page's own key. *)
Lemma Payout_refresh_calls_fetcher env st w :
  browser env = true -> online env = true ->
  requests (snd (AdminPayout.refresh env st w))
  = requests (snd (fetchNewsAndBlogs env w)).
Proof.
  intros Hb Ho. unfold AdminPayout.refresh. rewrite Hb, Ho. simpl.
  unfold then_catch, bind.
  destruct (fetchNewsAndBlogs env w) as [[r |] w1]; simpl; [| reflexivity].
  unfold AdminPayout.spread2. destruct (nb_news r), (nb_blogs r); reflexivity.
Qed.

(** C4, as the code has it.  On the dashboard and on the analytics page, with
    a cached batch under [newsapi_news_blogs] at page load, the effects of the
    page, run in any order and any number of times, issue no request and
    leave the store as it is, whatever the connectivity, the clock and the
    entry's timestamp; once hydration has run the page shows the cached
    batch.  The refresh step of the payout page, online, issues exactly the
    requests of a call of [fetchNewsAndBlogs]. *)
Theorem cached_batch_means_no_network_call
    (env : Env) (w : World) (c : CacheValue) (n b : list Article) :
  browser env = true ->
  store w !! "newsapi_news_blogs" = Some c ->
  c_news c = Some n -> c_blogs c = Some b ->
  (forall p es, exists st',
     Home.run_effects env p es (Home.initial p) w = (Ok st', w)
     /\ (In Home.Hydrate es -> Home.adopted n b st'))
  /\ (forall p es, exists st',
     NewsAnalytics.run_effects env p es (NewsAnalytics.initial p) w = (Ok st', w)
     /\ (In NewsAnalytics.Hydrate es -> st' = NewsAnalytics.mkState (Some n) (Some b)))
  /\ (forall st w0, online env = true ->
     requests (snd (AdminPayout.refresh env st w0))
     = requests (snd (fetchNewsAndBlogs env w0))).
Proof.
  intros Hb Hc Hn Hbl. split; [| split].
  - intros p es.
    destruct (Home_effects_cached env p es (Home.initial p) w c n b Hb Hc Hn Hbl)
      as (st' & Hrun & Had).
    + split; simpl; eauto.
    + exists st'. split; [exact Hrun |]. intros Hin. apply Had. now left.
  - intros p es.
    destruct (Analytics_effects_cached env p es (NewsAnalytics.initial p) w c n b
                Hb Hc Hn Hbl) as (st' & Hrun & Had).
    exists st'. split; [exact Hrun |]. intros Hin. apply Had. now left.
  - intros st w0 Ho. now apply Payout_refresh_calls_fetcher.
Qed.

(** The dashboard mounts online, two hours after the entry was written. *)
Lemma cached_batch_means_no_network_call_witness :
  exists st',
    Home.mount (Sample.client (2 * HOUR) Sample.net_ok) Sample.home_props
      (Sample.world_with "newsapi_news_blogs" Sample.pair_entry)
    = (Ok st', Sample.world_with "newsapi_news_blogs" Sample.pair_entry)
    /\ Home.adopted Sample.old_news [] st'.
Proof.
  destruct (cached_batch_means_no_network_call
              (Sample.client (2 * HOUR) Sample.net_ok)
              (Sample.world_with "newsapi_news_blogs" Sample.pair_entry)
              Sample.pair_entry Sample.old_news [] eq_refl eq_refl eq_refl eq_refl)
    as [H _].
  destruct (H Sample.home_props
              [Home.Hydrate; Home.Refresh; Home.Offline; Home.EmptyFallback])
    as (st' & Hrun & Had).
  exists st'. split; [exact Hrun |]. apply Had. simpl. now left.
Defined.

(** C4 as stated fails on the payout page: with a cached batch under the
    page's key and the browser online, mounting the page issues both category
    requests, and the page ends up showing the provider's articles rather
    than the cached ones. *)
Lemma payout_page_calls_network_despite_cache :
  let env := Sample.client (2 * HOUR) Sample.net_ok in
  let w := Sample.world_with AdminPayout.KEY Sample.flat_entry in
  has_articles (store w !! AdminPayout.KEY) = true
  /\ requests w = []
  /\ requests (snd (AdminPayout.mount env Sample.payout_props w))
     = [TopHeadlinesIn "technology"; TopHeadlinesIn "general"]
  /\ fst (AdminPayout.mount env Sample.payout_props w)
     = Ok (AdminPayout.mkState
             [Sample.art "news" "Fed raises rates" (Some "Jane");
              Sample.art "blogs" "Fed raises rates" (Some "Jane")]).
Proof. cbv zeta. repeat split; reflexivity. Qed.

(** ** C5 *)

(** C5, as the code has it.  When the fetcher fails inside the refresh step,
    the step itself completes on every page and the displayed collections are
    as before.  The dashboard raises its error flag; the analytics and payout
    pages, which have no such flag, are left exactly as they were. *)
Theorem refresh_failure_is_caught (env : Env) (w w' : World) :
  browser env = true -> online env = true ->
  fetchNewsAndBlogs env w = (Throw, w') ->
  (forall st, has_news_blogs (store w !! Home.KEY) = false ->
     exists st', Home.refresh env st w = (Ok st', w')
       /\ Home.news st' = Home.news st /\ Home.blogs st' = Home.blogs st
       /\ Home.offlineArticles st' = Home.offlineArticles st
       /\ Home.apiError st' = true /\ Home.unavailable st' = true)
  /\ (forall st, has_news_blogs (store w !! NewsAnalytics.KEY) = false ->
     NewsAnalytics.refresh env st w = (Ok st, w'))
  /\ (forall st, AdminPayout.refresh env st w = (Ok st, w'))
  /\ store w' = store w.
Proof.
  intros Hb Ho Hf. repeat split.
  - intros st Hc. exists (Home.setApiError true st).
    rewrite (Home_refresh_failure env st w w' Hb Ho Hc Hf). repeat split.
  - intros st Hc. now apply Analytics_refresh_failure.
  - intros st. now apply Payout_refresh_failure.
  - now apply (fetchNewsAndBlogs_throw_store env w).
Qed.

(** No connection and an empty store: the dashboard raises its flag. *)
Lemma refresh_failure_is_caught_witness :
  exists st',
    Home.refresh (Sample.client 0 Sample.net_down) (Home.initial Sample.home_props)
      Sample.empty_world
    = (Ok st', mkWorld ∅ [TopHeadlinesIn "technology"])
    /\ Home.apiError st' = true.
Proof.
  destruct (refresh_failure_is_caught (Sample.client 0 Sample.net_down)
              Sample.empty_world (mkWorld ∅ [TopHeadlinesIn "technology"])
              eq_refl eq_refl eq_refl) as [H _].
  destruct (H (Home.initial Sample.home_props) eq_refl)
    as (st' & Hrun & _ & _ & _ & Herr & _).
  exists st'. split; assumption.
Defined.

(** C5 as stated fails on the analytics and payout pages: the fetcher fails,
    the failure is swallowed, and no error flag is raised; the pages are
    exactly as before. *)
Lemma analytics_refresh_failure_raises_no_flag :
  let env := Sample.client 0 Sample.net_down in
  let st := NewsAnalytics.initial Sample.analytics_props in
  let pst := AdminPayout.initial Sample.payout_props in
  fst (fetchNewsAndBlogs env Sample.empty_world) = Throw
  /\ NewsAnalytics.refresh env st Sample.empty_world
     = (Ok st, mkWorld ∅ [TopHeadlinesIn "technology"])
  /\ NewsAnalytics.unavailable st = false
  /\ AdminPayout.refresh env pst Sample.empty_world
     = (Ok pst, mkWorld ∅ [TopHeadlinesIn "technology"])
  /\ AdminPayout.unavailable pst = false.
Proof. cbv zeta. repeat split; reflexivity. Qed.

(** ** C6 *)

(** C6: whatever the prior filter state, [setType t] yields type [t],
    author ["All"], and an empty search term, start date and end date. *)
Theorem setType_resets_sub_filters
    (state : FiltersSlice.FiltersState) (t : FiltersSlice.FilterType) :
  FiltersSlice.setType state t = FiltersSlice.mkFilters t "" "All" "" ""
  /\ FiltersSlice.reducer state (FiltersSlice.SetType t)
     = FiltersSlice.mkFilters t "" "All" "" "".
Proof. split; reflexivity. Qed.

(** ** C7 *)

Lemma valid_type_of_tag ty (l : list Article) :
  ty = "news" \/ ty = "blogs" ->
  Forall (fun a => type a = ty) l -> Forall valid_type l.
Proof.
  intros Hty H. eapply Forall_impl; [exact H |]. intros a Ha. simpl in Ha.
  unfold valid_type. rewrite Ha.
  destruct Hty as [-> | ->]; split; auto; discriminate.
Qed.

(** C7: every article the fetchers map from a provider response carries the
    type ["news"] or ["blogs"], never the empty string: in the mapping
    itself, in what a remote call of [fetchNews] and of [fetchNewsAndBlogs]
    resolves to, whatever the environment, the store and the response. *)
Theorem mapped_articles_are_news_or_blogs :
  (forall data, Forall (fun a => type a = "news") (mapArticles "news" data))
  /\ (forall data, Forall (fun a => type a = "blogs") (mapArticles "blogs" data))
  /\ (forall env w r w',
        fetchNews_remote env w = (Ok r, w') ->
        exists arts, r = Some arts /\ Forall valid_type arts)
  /\ (forall env w r w',
        fetchNewsAndBlogs_remote env w = (Ok r, w') ->
        exists n b, nb_news r = Some n /\ nb_blogs r = Some b
          /\ Forall (fun a => type a = "news") n
          /\ Forall (fun a => type a = "blogs") b
          /\ Forall valid_type (n ++ b)).
Proof.
  split; [| split; [| split]]; try (intros; apply mapArticles_type).
  - intros env w r w'. unfold fetchNews_remote. run_eff.
    destruct (network env TopHeadlines) as [| [] [| data]]; simpl; try discriminate.
    destruct (browser env); simpl; intros [= <- _];
      (eexists; split; [reflexivity |]);
      apply valid_type_of_tag with (ty := "news"); auto using mapArticles_type.
  - intros env w r w'. unfold fetchNewsAndBlogs_remote. run_eff.
    destruct (network env (TopHeadlinesIn "technology")) as [| ok1 [| d1]]; simpl;
      try discriminate.
    destruct (network env (TopHeadlinesIn "general")) as [| ok2 [| d2]]; simpl;
      try discriminate.
    destruct (browser env); simpl; intros [= <- _]; simpl;
      (do 2 eexists; split; [reflexivity |]; split; [reflexivity |]);
      (split; [apply mapArticles_type |]; split; [apply mapArticles_type |]);
      apply Forall_app; split;
      [apply valid_type_of_tag with (ty := "news")
      | apply valid_type_of_tag with (ty := "blogs")
      | apply valid_type_of_tag with (ty := "news")
      | apply valid_type_of_tag with (ty := "blogs")];
      auto using mapArticles_type.
Qed.

(** Server-side rendering against a provider with one headline per request. *)
Lemma mapped_articles_are_news_or_blogs_witness :
  exists n b,
    Some [Sample.art "news" "Fed raises rates" (Some "Jane")] = Some n
    /\ Some [Sample.art "blogs" "Fed raises rates" (Some "Jane")] = Some b
    /\ Forall (fun a => type a = "news") n
    /\ Forall (fun a => type a = "blogs") b
    /\ Forall valid_type (n ++ b).
Proof.
  destruct mapped_articles_are_news_or_blogs as (_ & _ & _ & H).
  apply (H (Sample.server Sample.net_ok) Sample.empty_world
           (mkNB (Some [Sample.art "news" "Fed raises rates" (Some "Jane")])
              (Some [Sample.art "blogs" "Fed raises rates" (Some "Jane")]))
           (mkWorld ∅ [TopHeadlinesIn "technology"; TopHeadlinesIn "general"])).
  reflexivity.
Defined.

(** ** C8 *)

(** *** Strings *)

Lemma app_cons c s t : String c s +:+ t = String c (s +:+ t).
Proof. reflexivity. Qed.

Lemma startsWith_spec t : forall s,
  JS.startsWith s t = true <-> exists post, s = t +:+ post.
Proof.
  induction t as [| b t IH]; intros s.
  - destruct s; simpl; split; eauto.
  - destruct s as [| a s]; simpl.
    + split; [discriminate | intros [post H]; discriminate].
    + rewrite andb_true_iff, bool_decide_eq_true, IH. split.
      * intros [-> [post ->]]. exists post. reflexivity.
      * intros [post H]. rewrite app_cons in H. injection H as -> ->. eauto.
Qed.

Lemma includes_spec t : forall s,
  JS.includes s t = true <-> FilterSpec.contains s t.
Proof.
  unfold FilterSpec.contains.
  induction s as [| a s IH]; cbn [JS.includes]; rewrite orb_true_iff, startsWith_spec.
  - split.
    + intros [[post H] | H]; [| discriminate]. exists "", post. exact H.
    + intros ([| c pre] & post & H); [left; eauto | discriminate].
  - rewrite IH. split.
    + intros [[post H] | (pre & post & H)].
      * exists "", post. exact H.
      * exists (String a pre), post. rewrite app_cons. congruence.
    + intros ([| c pre] & post & H).
      * left. eauto.
      * right. rewrite app_cons in H. injection H as -> ->. eauto.
Qed.

Lemma toLowerCase_app s t :
  JS.toLowerCase (s +:+ t) = JS.toLowerCase s +:+ JS.toLowerCase t.
Proof.
  induction s as [| a s IH]; [reflexivity |].
  rewrite app_cons. simpl. rewrite IH. reflexivity.
Qed.

Lemma toLowerCase_split x : forall s y,
  JS.toLowerCase s = x +:+ y ->
  exists a b, s = a +:+ b /\ JS.toLowerCase a = x /\ JS.toLowerCase b = y.
Proof.
  induction x as [| c x IH]; intros s y H.
  - exists "", s. auto.
  - destruct s as [| d s]; [discriminate |].
    rewrite app_cons in H. simpl in H. injection H as Hc Hs.
    destruct (IH s y Hs) as (a & b & -> & Ha & Hb).
    exists (String d a), b. simpl. rewrite Ha, Hc. auto.
Qed.

(** [s.toLowerCase().includes(t.toLowerCase())] is containment up to case. *)
Lemma includes_lower_spec s t :
  JS.includes (JS.toLowerCase s) (JS.toLowerCase t) = true
  <-> FilterSpec.contains_ci s t.
Proof.
  rewrite includes_spec. unfold FilterSpec.contains, FilterSpec.contains_ci. split.
  - intros (pre & post & H).
    destruct (toLowerCase_split pre s _ H) as (a & r & -> & Ha & Hr).
    destruct (toLowerCase_split _ r post Hr) as (u & c & -> & Hu & Hc).
    exists a, u, c. auto.
  - intros (pre & u & post & -> & Hu).
    exists (JS.toLowerCase pre), (JS.toLowerCase post).
    rewrite !toLowerCase_app, Hu. reflexivity.
Qed.

Lemma orUnknown_spec a : JS.orUnknown (author a) = FilterSpec.author_falsy_unknown a.
Proof.
  unfold FilterSpec.author_falsy_unknown. destruct (author a) as [[| c s] |]; reflexivity.
Qed.

Section FilterPredicate.
Variable newDate : string -> JS.Date.

Lemma matchesSearch_spec f a :
  Home.matchesSearch f a = true <-> FilterSpec.search_ok f a.
Proof.
  unfold Home.matchesSearch, FilterSpec.search_ok.
  rewrite orb_true_iff, includes_lower_spec.
  destruct (description a) as [d |].
  - rewrite includes_lower_spec. split; intros [H | H]; auto.
    + right. eauto.
    + destruct H as (d' & [= <-] & H). auto.
  - split; intros [H | H]; auto; [discriminate |].
    destruct H as (d' & H & _). discriminate.
Qed.

Lemma matchesAuthor_spec f a :
  Home.matchesAuthor f a = true <->
  (FiltersSlice.selectedAuthor f = "All"
   \/ FilterSpec.author_falsy_unknown a = FiltersSlice.selectedAuthor f).
Proof.
  unfold Home.matchesAuthor.
  rewrite orb_true_iff, !bool_decide_eq_true, orUnknown_spec. reflexivity.
Qed.

Lemma date_ge_spec pub bound :
  JS.date_ge (newDate pub) (newDate bound) = true
  <-> FilterSpec.on_or_after newDate pub bound.
Proof.
  unfold JS.date_ge, FilterSpec.on_or_after.
  destruct (newDate pub) as [x |], (newDate bound) as [y |]; split;
    try discriminate; try (intros (? & ? & ? & ? & ?); discriminate).
  - intros H. apply Z.leb_le in H. eauto.
  - intros (x' & y' & [= <-] & [= <-] & H). now apply Z.leb_le.
Qed.

Lemma date_le_spec pub bound :
  JS.date_le (newDate pub) (newDate bound) = true
  <-> FilterSpec.on_or_before newDate pub bound.
Proof.
  unfold JS.date_le, FilterSpec.on_or_before.
  destruct (newDate pub) as [x |], (newDate bound) as [y |]; split;
    try discriminate; try (intros (? & ? & ? & ? & ?); discriminate).
  - intros H. apply Z.leb_le in H. eauto.
  - intros (x' & y' & [= <-] & [= <-] & H). now apply Z.leb_le.
Qed.

Lemma matchesStart_spec f a :
  Home.matchesStart newDate f a = true
  <-> (FiltersSlice.startDate f <> "" ->
       FilterSpec.on_or_after newDate (publishedAt a) (FiltersSlice.startDate f)).
Proof.
  unfold Home.matchesStart. rewrite <- date_ge_spec.
  destruct (FiltersSlice.startDate f) as [| c s]; simpl.
  - split; [intros _ H; congruence | reflexivity].
  - split; [intros H _; exact H | intros H; apply H; discriminate].
Qed.

Lemma matchesEnd_spec f a :
  Home.matchesEnd newDate f a = true
  <-> (FiltersSlice.endDate f <> "" ->
       FilterSpec.on_or_before newDate (publishedAt a) (FiltersSlice.endDate f)).
Proof.
  unfold Home.matchesEnd. rewrite <- date_le_spec.
  destruct (FiltersSlice.endDate f) as [| c s]; simpl.
  - split; [intros _ H; congruence | reflexivity].
  - split; [intros H _; exact H | intros H; apply H; discriminate].
Qed.

Lemma passes_spec f a :
  Home.passes newDate f a = true <-> FilterSpec.admits newDate f a.
Proof.
  unfold Home.passes, FilterSpec.admits.
  unfold FilterSpec.dates_ok.
  rewrite !andb_true_iff, matchesSearch_spec, matchesAuthor_spec,
    matchesStart_spec, matchesEnd_spec.
  tauto.
Qed.

End FilterPredicate.

(** C8, as the code has it.  The filtering callback admits an article exactly
    when its title or description contains the search term up to case, its
    author, with an absent or empty author normalised to ["Unknown"], equals
    the selected author or the selection is ["All"], and its publication date
    lies within the inclusive start and end bounds when those are set; the
    filtered list holds exactly the admitted articles.  The article
    "Fed raises rates" by Jane of 2024-03-01 passes the filters
    fed / Jane / 2024-02-01 / 2024-04-01 and is excluded for John. *)
Theorem filter_admits_exactly :
  (forall newDate f a,
     Home.passes newDate f a = true <-> FilterSpec.admits newDate f a)
  /\ (forall newDate f l a,
     In a (Home.filtered newDate f l) <-> In a l /\ FilterSpec.admits newDate f a)
  /\ Home.passes JS.newDate_iso Sample.jane_filters Sample.fed_article = true
  /\ Home.passes JS.newDate_iso Sample.john_filters Sample.fed_article = false.
Proof.
  split; [| split; [| split]]; try reflexivity.
  - apply passes_spec.
  - intros newDate f l a. unfold Home.filtered.
    rewrite filter_In, passes_spec. reflexivity.
Qed.

(** The example article is admitted in the words of the specification. *)
Lemma filter_admits_exactly_witness :
  FilterSpec.admits JS.newDate_iso Sample.jane_filters Sample.fed_article.
Proof.
  destruct filter_admits_exactly as [H _].
  apply (proj1 (H JS.newDate_iso Sample.jane_filters Sample.fed_article)).
  reflexivity.
Defined.

(** C8 as stated fails for an author that is the empty string: with the
    author ["Unknown"] selected the callback admits the article, although its
    author is present and is not ["Unknown"]. *)
Lemma empty_author_passes_as_unknown :
  author Sample.anonymous_article = Some ""
  /\ Home.passes JS.newDate_iso Sample.unknown_filters Sample.anonymous_article = true
  /\ ~ FilterSpec.admits_as_stated JS.newDate_iso Sample.unknown_filters
         Sample.anonymous_article.
Proof.
  split; [reflexivity |]. split; [reflexivity |].
  intros (_ & [H | H] & _); discriminate H.
Qed.

(** ** C9 *)

Section Grouping.
Import AdminPayout.

Lemma lookup_bump_group key k : forall m,
  lookup_group k (bump_group key m)
  = if bool_decide (k = key) then bump <$> lookup_group k m else lookup_group k m.
Proof.
  induction m as [| [k0 g] m IH]; simpl.
  - destruct (bool_decide (k = key)); reflexivity.
  - destruct (bool_decide (k0 = key)) eqn:E0; simpl.
    + apply bool_decide_eq_true in E0. subst k0.
      destruct (bool_decide (key = k)) eqn:E1.
      * apply bool_decide_eq_true in E1. subst k.
        rewrite bool_decide_eq_true_2 by reflexivity. reflexivity.
      * apply bool_decide_eq_false in E1.
        rewrite (bool_decide_eq_false_2 (k = key)) by congruence. reflexivity.
    + destruct (bool_decide (k0 = k)) eqn:E1.
      * apply bool_decide_eq_true in E1. subst k0.
        rewrite E0. reflexivity.
      * exact IH.
Qed.

Lemma lookup_group_app k : forall m m',
  lookup_group k (m ++ m')
  = match lookup_group k m with
    | Some g => Some g
    | None => lookup_group k m'
    end.
Proof.
  induction m as [| [k0 g] m IH]; intros m'; simpl; [reflexivity |].
  destruct (bool_decide (k0 = k)); auto.
Qed.

Lemma lookup_ensure_group key au ty k m :
  lookup_group k (ensure_group key au ty m)
  = match lookup_group k m with
    | Some g => Some g
    | None => if bool_decide (k = key) then Some (mkGroup au ty 0) else None
    end.
Proof.
  unfold ensure_group. destruct (lookup_group key m) as [g0 |] eqn:E.
  - destruct (lookup_group k m) eqn:Ek; [reflexivity |].
    rewrite bool_decide_eq_false_2; [reflexivity | congruence].
  - rewrite lookup_group_app. simpl.
    destruct (lookup_group k m); [reflexivity |].
    destruct (bool_decide (key = k)) eqn:E1.
    + apply bool_decide_eq_true in E1. subst.
      rewrite bool_decide_eq_true_2; reflexivity.
    + apply bool_decide_eq_false in E1.
      rewrite bool_decide_eq_false_2; [reflexivity | congruence].
Qed.

(** One article: its group is created with count 1 or its count grows by
    one; every other group is untouched. *)
Lemma lookup_group_step k m a :
  lookup_group k (group_step m a)
  = if bool_decide (k = keyOf a)
    then Some (match lookup_group k m with
               | Some g => bump g
               | None => mkGroup (JS.orUnknown (author a)) (type a) 1
               end)
    else lookup_group k m.
Proof.
  unfold group_step. fold (keyOf a).
  rewrite lookup_bump_group, lookup_ensure_group.
  destruct (bool_decide (k = keyOf a)); destruct (lookup_group k m); reflexivity.
Qed.

Lemma count_key_cons key a arts :
  count_key key (a :: arts)
  = (if bool_decide (keyOf a = key) then 1 else 0) + count_key key arts.
Proof.
  unfold count_key. simpl. destruct (bool_decide (keyOf a = key)); simpl; lia.
Qed.

Lemma count_key_nonneg key arts : 0 <= count_key key arts.
Proof. unfold count_key. lia. Qed.

Lemma lookup_fold_group_step k : forall arts m,
  lookup_group k (fold_left group_step arts m)
  = match lookup_group k m with
    | Some g => Some (mkGroup (g_author g) (g_type g) (g_count g + count_key k arts))
    | None =>
        match List.find (fun a => bool_decide (keyOf a = k)) arts with
        | Some a => Some (mkGroup (JS.orUnknown (author a)) (type a) (count_key k arts))
        | None => None
        end
    end.
Proof.
  induction arts as [| a arts IH]; intros m; simpl.
  - destruct (lookup_group k m) as [[au ty n] |]; [| reflexivity].
    unfold count_key. simpl. rewrite Z.add_0_r. reflexivity.
  - rewrite IH, lookup_group_step, count_key_cons.
    destruct (bool_decide (keyOf a = k)) eqn:E.
    + apply bool_decide_eq_true in E.
      rewrite bool_decide_eq_true_2 by congruence.
      destruct (lookup_group k m) as [g |]; simpl; do 2 f_equal; lia.
    + apply bool_decide_eq_false in E.
      rewrite bool_decide_eq_false_2 by congruence.
      destruct (lookup_group k m) as [g |]; simpl; reflexivity.
Qed.

Lemma lookup_grouped k arts :
  lookup_group k (grouped arts)
  = match List.find (fun a => bool_decide (keyOf a = k)) arts with
    | Some a => Some (mkGroup (JS.orUnknown (author a)) (type a) (count_key k arts))
    | None => None
    end.
Proof. unfold grouped. rewrite lookup_fold_group_step. reflexivity. Qed.

(** The keys of the map stay pairwise distinct. *)
Lemma lookup_group_None k m : lookup_group k m = None <-> ~ In k (map fst m).
Proof.
  induction m as [| [k0 g] m IH]; simpl; [tauto |].
  destruct (bool_decide (k0 = k)) eqn:E.
  - apply bool_decide_eq_true in E. split; [discriminate | tauto].
  - apply bool_decide_eq_false in E. rewrite IH. tauto.
Qed.

Lemma keys_bump_group key : forall m, map fst (bump_group key m) = map fst m.
Proof.
  induction m as [| [k0 g] m IH]; simpl; [reflexivity |].
  destruct (bool_decide (k0 = key)); simpl; congruence.
Qed.

Lemma NoDup_group_step m a :
  List.NoDup (map fst m) -> List.NoDup (map fst (group_step m a)).
Proof.
  intros H. unfold group_step. rewrite keys_bump_group. unfold ensure_group.
  destruct (lookup_group _ m) eqn:E; [exact H |].
  rewrite map_app. simpl. apply lookup_group_None in E.
  apply NoDup_ListNoDup. apply NoDup_app. repeat split.
  - now apply NoDup_ListNoDup.
  - intros x Hx Hx'. apply list_elem_of_In in Hx. apply list_elem_of_In in Hx'.
    destruct Hx' as [<- | []]. contradiction.
  - apply NoDup_singleton.
Qed.

Lemma NoDup_grouped arts : List.NoDup (map fst (grouped arts)).
Proof.
  unfold grouped. generalize (List.NoDup_nil string).
  change (@nil string) with (map fst (@nil (string * Group))).
  generalize (@nil (string * Group)).
  induction arts as [| a arts IH]; intros m H; simpl; [exact H |].
  apply IH. now apply NoDup_group_step.
Qed.

Lemma In_lookup_group k g : forall m,
  List.NoDup (map fst m) -> In (k, g) m -> lookup_group k m = Some g.
Proof.
  induction m as [| [k0 g0] m IH]; simpl; intros Hnd Hin; [contradiction |].
  inversion Hnd as [| ? ? Hnotin Hnd']; subst.
  destruct Hin as [[= -> ->] | Hin].
  - rewrite bool_decide_eq_true_2; reflexivity.
  - rewrite bool_decide_eq_false_2; [auto |].
    intros ->. apply Hnotin. apply (in_map fst) in Hin. exact Hin.
Qed.

Lemma find_count_pos k arts a :
  List.find (fun a => bool_decide (keyOf a = k)) arts = Some a ->
  keyOf a = k /\ 0 < count_key k arts.
Proof.
  induction arts as [| a0 arts IH]; simpl; [discriminate |].
  rewrite count_key_cons.
  pose proof (count_key_nonneg k arts).
  destruct (bool_decide (keyOf a0 = k)) eqn:E.
  - intros [= <-]. apply bool_decide_eq_true in E. split; [exact E | lia].
  - intros Hf. destruct (IH Hf). split; [assumption | lia].
Qed.

(** Every entry of the map is the group of its key. *)
Lemma grouped_entry arts key g :
  In (key, g) (grouped arts) ->
  g_count g = count_key key arts /\ 0 < g_count g
  /\ AuthorTypeKey (g_author g) (g_type g) = key.
Proof.
  intros Hin. apply In_lookup_group in Hin; [| apply NoDup_grouped].
  rewrite lookup_grouped in Hin.
  destruct (List.find _ arts) as [a |] eqn:Hf; [| discriminate].
  injection Hin as <-. simpl.
  destruct (find_count_pos key arts a Hf) as [Hk Hpos]. auto.
Qed.

End Grouping.

(** *** The key separates author and type when the type is a label *)

#[local] Abbreviation chars := Stdlib.Strings.String.list_ascii_of_string.

Lemma chars_app s t :
  chars (s +:+ t) = chars s ++ chars t.
Proof.
  induction s as [| c s IH]; [reflexivity |].
  rewrite app_cons. simpl. rewrite IH. reflexivity.
Qed.

Lemma chars_inj s t :
  chars s = chars t -> s = t.
Proof.
  intros H. rewrite <- (Stdlib.Strings.String.string_of_list_ascii_of_string s),
    <- (Stdlib.Strings.String.string_of_list_ascii_of_string t), H. reflexivity.
Qed.

Lemma app_suffix_cancel a1 a2 suffix :
  a1 +:+ suffix = a2 +:+ suffix -> a1 = a2.
Proof.
  intros H. apply (f_equal chars) in H.
  rewrite !chars_app in H.
  apply app_inj_2 in H; [| reflexivity].
  apply chars_inj. tauto.
Qed.

Lemma news_blogs_suffix a1 a2 : a1 +:+ "|||news" <> a2 +:+ "|||blogs".
Proof.
  intros H. apply (f_equal chars) in H.
  rewrite !chars_app in H.
  change (chars "|||blogs")
    with (["|"%char] ++ chars "||blogs") in H.
  rewrite app_assoc in H. apply app_inj_2 in H; [| reflexivity].
  destruct H as [_ H]. discriminate H.
Qed.

Lemma AuthorTypeKey_inj a1 t1 a2 t2 :
  t1 = "news" \/ t1 = "blogs" -> t2 = "news" \/ t2 = "blogs" ->
  AdminPayout.AuthorTypeKey a1 t1 = AdminPayout.AuthorTypeKey a2 t2 ->
  a1 = a2 /\ t1 = t2.
Proof.
  unfold AdminPayout.AuthorTypeKey.
  intros [-> | ->] [-> | ->] H.
  - split; [| reflexivity]. now apply app_suffix_cancel in H.
  - exfalso. now apply news_blogs_suffix in H.
  - exfalso. symmetry in H. now apply news_blogs_suffix in H.
  - split; [| reflexivity]. now apply app_suffix_cancel in H.
Qed.

Lemma count_key_pair au ty arts :
  Forall valid_type arts -> ty = "news" \/ ty = "blogs" ->
  AdminPayout.count_key (AdminPayout.AuthorTypeKey au ty) arts
  = AdminPayout.count_pair au ty arts.
Proof.
  intros Hv Hty. unfold AdminPayout.count_key, AdminPayout.count_pair.
  do 2 f_equal. induction Hv as [| a arts [Ha _] Hv IH]; [reflexivity |].
  simpl. rewrite IH.
  assert (E : bool_decide (AdminPayout.keyOf a = AdminPayout.AuthorTypeKey au ty)
              = bool_decide (JS.orUnknown (author a) = au) && bool_decide (type a = ty)).
  { destruct (bool_decide (AdminPayout.keyOf a = _)) eqn:E.
    - apply bool_decide_eq_true in E.
      apply AuthorTypeKey_inj in E as [-> ->]; [| assumption ..].
      rewrite !bool_decide_eq_true_2; reflexivity.
    - apply bool_decide_eq_false in E. symmetry. apply andb_false_iff.
      destruct (bool_decide (JS.orUnknown (author a) = au)) eqn:E1; [| auto].
      destruct (bool_decide (type a = ty)) eqn:E2; [| auto].
      apply bool_decide_eq_true in E1, E2. exfalso. apply E.
      unfold AdminPayout.keyOf. congruence. }
  rewrite E. reflexivity.
Qed.

(** C9: grouping counts every article under the key of its author and type.
    The group of a key exists exactly when some article has the key, carries
    the author and type of the first such article, and its count is the
    number of articles with that key; every entry of the map is such a group,
    with a positive count.  When the types are the labels ["news"] and
    ["blogs"], that is the number of articles with that author and type.  The
    rate of a group without an edited rate is 2, and the total is the count
    times the rate.  Two news articles and one blog article by Jane give the
    groups Jane/news with count 2 and Jane/blogs with count 1, and at rate 3
    the Jane/news total is ["6.00"]. *)
Theorem grouping_counts_and_payout :
  (forall arts key,
     AdminPayout.lookup_group key (AdminPayout.grouped arts)
     = match List.find (fun a => bool_decide (AdminPayout.keyOf a = key)) arts with
       | Some a =>
           Some (AdminPayout.mkGroup (JS.orUnknown (author a)) (type a)
                   (AdminPayout.count_key key arts))
       | None => None
       end)
  /\ (forall arts key g,
     In (key, g) (AdminPayout.grouped arts) ->
     AdminPayout.g_count g = AdminPayout.count_key key arts
     /\ 0 < AdminPayout.g_count g
     /\ AdminPayout.AuthorTypeKey (AdminPayout.g_author g) (AdminPayout.g_type g) = key)
  /\ (forall arts au ty,
     Forall valid_type arts -> ty = "news" \/ ty = "blogs" ->
     AdminPayout.count_key (AdminPayout.AuthorTypeKey au ty) arts
     = AdminPayout.count_pair au ty arts)
  /\ (forall rates key,
     rates !! key = None -> AdminPayout.rateOf rates key = JS.Fin 2)
  /\ (forall rates g q,
     AdminPayout.rateOf rates
       (AdminPayout.AuthorTypeKey (AdminPayout.g_author g) (AdminPayout.g_type g))
     = JS.Fin q ->
     AdminPayout.total rates g = JS.Fin (inject_Z (AdminPayout.g_count g) * q)
     /\ AdminPayout.r_total (AdminPayout.row rates g)
        = JS.toFixed2 (JS.Fin (inject_Z (AdminPayout.g_count g) * q)))
  /\ AdminPayout.grouped
       (AdminPayout.filteredArticles "All" "All" Sample.jane_articles)
     = [("Jane|||news", AdminPayout.mkGroup "Jane" "news" 2);
        ("Jane|||blogs", AdminPayout.mkGroup "Jane" "blogs" 1)]
  /\ AdminPayout.rows
       (AdminPayout.handleRateChange JS.Number_decimal "Jane" "news" "3" ∅)
       (AdminPayout.grouped
          (AdminPayout.filteredArticles "All" "All" Sample.jane_articles))
     = [AdminPayout.mkRow "Jane" "news" 2 (JS.Fin 3) "6.00";
        AdminPayout.mkRow "Jane" "blogs" 1 (JS.Fin 2) "2.00"].
Proof.
  split; [| split; [| split; [| split; [| split; [| split]]]]].
  - intros. apply lookup_grouped.
  - intros arts key g. apply grouped_entry.
  - intros arts au ty. apply count_key_pair.
  - intros rates key H. unfold AdminPayout.rateOf. rewrite H. reflexivity.
  - intros rates g q H. unfold AdminPayout.total, AdminPayout.row. simpl.
    rewrite H. split; reflexivity.
  - reflexivity.
  - vm_compute. reflexivity.
Qed.

(** The Jane/news group of the example, found in the map. *)
Lemma grouping_counts_and_payout_witness :
  AdminPayout.g_count (AdminPayout.mkGroup "Jane" "news" 2)
  = AdminPayout.count_key "Jane|||news" Sample.jane_articles
  /\ 0 < AdminPayout.g_count (AdminPayout.mkGroup "Jane" "news" 2)
  /\ AdminPayout.AuthorTypeKey "Jane" "news" = "Jane|||news".
Proof.
  destruct grouping_counts_and_payout as (_ & H & _).
  apply (H Sample.jane_articles "Jane|||news" (AdminPayout.mkGroup "Jane" "news" 2)).
  simpl. left. reflexivity.
Defined.

(** ** C10 *)

Lemma nonNegative_two : JS.nonNegative (JS.ofZ 2).
Proof. split; reflexivity. Qed.

Lemma ge0_Fin q : JS.ge0 (JS.Fin q) = true <-> (0 <= q)%Q.
Proof.
  simpl. rewrite Qle_alt. destruct (0 ?= q)%Q; split; congruence.
Qed.

Lemma sign_inject_pos n : 0 < n -> JS.sign (inject_Z n) = Gt.
Proof.
  intros H. unfold JS.sign. apply Qgt_alt.
  change 0%Q with (inject_Z 0). rewrite <- Zlt_Qlt. exact H.
Qed.

(** A positive count times a non-negative rate is non-negative. *)
Lemma nonNegative_mul n x :
  0 < n -> JS.nonNegative x -> JS.nonNegative (JS.mul (JS.ofZ n) x).
Proof.
  intros Hn [Hnan Hge]. destruct x as [| | | q]; try discriminate.
  - unfold JS.ofZ. simpl. rewrite (sign_inject_pos n Hn). split; reflexivity.
  - split; [reflexivity |]. unfold JS.ofZ. cbn [JS.mul].
    apply ge0_Fin. apply ge0_Fin in Hge. apply Qmult_le_0_compat; [| exact Hge].
    change 0%Q with (inject_Z 0). rewrite <- Zle_Qle. lia.
Qed.

Section PayoutRates.
Import AdminPayout.
Variable Number : string -> JS.Num.

Lemma handleRateChange_accepts author type value rates :
  JS.nonNegative (Number value) ->
  handleRateChange Number author type value rates
  = <[AuthorTypeKey author type := Number value]> rates.
Proof.
  intros [Hnan Hge]. unfold handleRateChange. rewrite Hnan, Hge. reflexivity.
Qed.

Lemma handleRateChange_rejects author type value rates :
  JS.isNaN (Number value) = true \/ JS.ge0 (Number value) = false ->
  handleRateChange Number author type value rates = rates.
Proof.
  intros [H | H]; unfold handleRateChange; rewrite H; simpl;
    [| rewrite andb_false_r]; reflexivity.
Qed.

Lemma handleRateChange_invariant author type value (rates : gmap string JS.Num) :
  map_Forall (fun _ r => JS.nonNegative r) rates ->
  map_Forall (fun _ r => JS.nonNegative r)
    (handleRateChange Number author type value rates).
Proof.
  intros H. unfold handleRateChange.
  destruct (JS.isNaN (Number value)) eqn:Hnan; simpl; [exact H |].
  destruct (JS.ge0 (Number value)) eqn:Hge; [| exact H].
  apply map_Forall_insert_2; [split; assumption | exact H].
Qed.

Lemma rates_after_invariant edits :
  map_Forall (fun _ r => JS.nonNegative r) (rates_after Number edits).
Proof.
  unfold rates_after.
  assert (G : forall (rates : gmap string JS.Num),
             map_Forall (fun _ r => JS.nonNegative r) rates ->
             map_Forall (fun _ r => JS.nonNegative r)
               (fold_left (fun rates '(a, t, v) => handleRateChange Number a t v rates)
                  edits rates)).
  { induction edits as [| [[a t] v] edits IH]; intros rates H; simpl; [exact H |].
    apply IH. now apply handleRateChange_invariant. }
  apply G. apply map_Forall_empty.
Qed.

Lemma rateOf_nonNegative (rates : gmap string JS.Num) key :
  map_Forall (fun _ r => JS.nonNegative r) rates ->
  JS.nonNegative (rateOf rates key).
Proof.
  intros H. unfold rateOf. destruct (rates !! key) as [r |] eqn:E; simpl.
  - exact (H key r E).
  - exact nonNegative_two.
Qed.

End PayoutRates.

(** C10: [handleRateChange] writes the parsed number under the key of the
    group exactly when it is not NaN and at least 0, and leaves the map as it
    is otherwise; so after any sequence of edits from the empty map every
    stored rate is a non-negative number, the rate used for any group is one
    (a stored rate or the default 2), and the total of every group of the
    table and of the exports, count times rate, is non-negative. *)
Theorem payout_rates_are_non_negative (Number : string -> JS.Num) :
  (forall author type value rates,
     JS.nonNegative (Number value) ->
     AdminPayout.handleRateChange Number author type value rates
     = <[AdminPayout.AuthorTypeKey author type := Number value]> rates)
  /\ (forall author type value rates,
     JS.isNaN (Number value) = true \/ JS.ge0 (Number value) = false ->
     AdminPayout.handleRateChange Number author type value rates = rates)
  /\ (forall edits key r,
     AdminPayout.rates_after Number edits !! key = Some r -> JS.nonNegative r)
  /\ (forall edits key,
     JS.nonNegative (AdminPayout.rateOf (AdminPayout.rates_after Number edits) key))
  /\ (forall edits arts key g,
     In (key, g) (AdminPayout.grouped arts) ->
     AdminPayout.total (AdminPayout.rates_after Number edits) g
     = JS.mul (JS.ofZ (AdminPayout.g_count g))
         (AdminPayout.rateOf (AdminPayout.rates_after Number edits) key)
     /\ JS.nonNegative (AdminPayout.total (AdminPayout.rates_after Number edits) g)).
Proof.
  split; [| split; [| split; [| split]]].
  - intros. now apply handleRateChange_accepts.
  - intros. now apply handleRateChange_rejects.
  - intros edits key r H. exact (rates_after_invariant Number edits key r H).
  - intros edits key. apply rateOf_nonNegative, rates_after_invariant.
  - intros edits arts key g Hin.
    destruct (grouped_entry arts key g Hin) as (_ & Hpos & Hkey).
    unfold AdminPayout.total. rewrite Hkey. split; [reflexivity |].
    apply nonNegative_mul; [exact Hpos |].
    apply rateOf_nonNegative, rates_after_invariant.
Qed.

(** After the sample edits only the accepted rate 3 is stored. *)
Lemma payout_rates_are_non_negative_witness :
  AdminPayout.rates_after JS.Number_decimal Sample.rate_edits !! "Jane|||news"
  = Some (JS.Fin 3)
  /\ AdminPayout.rates_after JS.Number_decimal Sample.rate_edits !! "Jane|||blogs"
  = None
  /\ JS.nonNegative (JS.Fin 3).
Proof.
  split; [reflexivity |]. split; [reflexivity |].
  destruct (payout_rates_are_non_negative JS.Number_decimal) as (_ & _ & H & _).
  apply (H Sample.rate_edits "Jane|||news" (JS.Fin 3)). reflexivity.
Defined.

(** * Further properties of the code *)

(** ** The store and the two fetchers *)

(** X1: a value stored under a key is what a later load under that key
    yields; the store under every other key and the request log are as
    before, and a second store under the same key replaces the first. *)
Theorem saveToIndexedDB_then_getFromIndexedDB
    (key key' : string) (value value2 : CacheValue) (w : World) :
  getFromIndexedDB key (snd (saveToIndexedDB key value w))
    = (Ok (Some value), snd (saveToIndexedDB key value w))
  /\ (key' <> key ->
      fst (getFromIndexedDB key' (snd (saveToIndexedDB key value w)))
      = fst (getFromIndexedDB key' w))
  /\ requests (snd (saveToIndexedDB key value w)) = requests w
  /\ snd (saveToIndexedDB key value2 (snd (saveToIndexedDB key value w)))
     = snd (saveToIndexedDB key value2 w).
Proof.
  unfold getFromIndexedDB, saveToIndexedDB. simpl. repeat split.
  - rewrite lookup_insert_eq. reflexivity.
  - intros Hne. rewrite lookup_insert_ne by congruence. reflexivity.
  - rewrite insert_insert_eq. reflexivity.
Qed.

Lemma saveToIndexedDB_then_getFromIndexedDB_witness :
  fst (getFromIndexedDB "newsapi_news"
         (snd (saveToIndexedDB "newsapi_news_blogs" Sample.pair_entry
                 Sample.empty_world)))
  = fst (getFromIndexedDB "newsapi_news" Sample.empty_world).
Proof.
  destruct (saveToIndexedDB_then_getFromIndexedDB "newsapi_news_blogs" "newsapi_news"
              Sample.pair_entry Sample.pair_entry Sample.empty_world)
    as (_ & H & _).
  apply H. discriminate.
Defined.

(** X2: after a call of [fetchNews] in a browser that found no entry and
    succeeded, a call less than one hour later resolves to the same articles
    from the cache: no request, no write, whatever the network does then. *)
Theorem fetchNews_second_call_is_served_from_cache
    (env env' : Env) (w w1 : World) (r : option (list Article)) :
  browser env = true -> browser env' = true ->
  store w !! "newsapi_news" = None ->
  fetchNews env w = (Ok r, w1) ->
  now env' - now env < HOUR ->
  fetchNews env' w1 = (Ok r, w1)
  /\ requests w1 = requests w ++ [TopHeadlines].
Proof.
  intros Hb Hb' Hmiss Hrun Hage.
  rewrite (fetchNews_miss env w (or_intror Hmiss)) in Hrun.
  pose proof (fetchNews_remote_requests env w) as Hreq. rewrite Hrun in Hreq.
  split; [| exact Hreq].
  unfold fetchNews_remote in Hrun. run_eff. rewrite Hb in Hrun.
  destruct (network env TopHeadlines) as [| [] [| d]]; simpl in Hrun;
    try discriminate.
  injection Hrun as <- <-.
  apply (fetchNews_hit env' _ (mkCache (Some (mapArticles "news" d)) None None (now env)));
    [exact Hb' | apply lookup_insert_eq | apply fresh_lt; exact Hage].
Qed.

Lemma fetchNews_second_call_is_served_from_cache_witness :
  fetchNews (Sample.client 1000 Sample.net_down)
    (snd (fetchNews (Sample.client 0 Sample.net_ok) Sample.empty_world))
  = (Ok (Some [Sample.art "news" "Fed raises rates" (Some "Jane")]),
     snd (fetchNews (Sample.client 0 Sample.net_ok) Sample.empty_world)).
Proof.
  apply (fetchNews_second_call_is_served_from_cache
           (Sample.client 0 Sample.net_ok) (Sample.client 1000 Sample.net_down)
           Sample.empty_world); try reflexivity.
Defined.

(** X3: the same for [fetchNewsAndBlogs]: after a call in a browser that
    found no entry and succeeded, a call less than one hour later resolves to
    the same two collections from the cache, without a request or a write. *)
Theorem fetchNewsAndBlogs_second_call_is_served_from_cache
    (env env' : Env) (w w1 : World) (r : NewsAndBlogs) :
  browser env = true -> browser env' = true ->
  store w !! "newsapi_news_blogs" = None ->
  fetchNewsAndBlogs env w = (Ok r, w1) ->
  now env' - now env < HOUR ->
  fetchNewsAndBlogs env' w1 = (Ok r, w1)
  /\ requests w1
     = requests w ++ [TopHeadlinesIn "technology"; TopHeadlinesIn "general"].
Proof.
  intros Hb Hb' Hmiss Hrun Hage.
  rewrite (fetchNewsAndBlogs_miss env w (or_intror Hmiss)) in Hrun.
  unfold fetchNewsAndBlogs_remote in Hrun. run_eff. rewrite Hb in Hrun.
  destruct (network env (TopHeadlinesIn "technology")) as [| ok1 [| d1]];
    simpl in Hrun; try discriminate.
  destruct (network env (TopHeadlinesIn "general")) as [| ok2 [| d2]];
    simpl in Hrun; try discriminate.
  injection Hrun as <- <-. simpl. rewrite <- app_assoc. split; [| reflexivity].
  apply (fetchNewsAndBlogs_hit env' _
           (mkCache None (Some (mapArticles "news" d1))
              (Some (mapArticles "blogs" d2)) (now env)));
    [exact Hb' | apply lookup_insert_eq | apply fresh_lt; exact Hage].
Qed.

Lemma fetchNewsAndBlogs_second_call_is_served_from_cache_witness :
  fetchNewsAndBlogs (Sample.client 1000 Sample.net_down)
    (snd (fetchNewsAndBlogs (Sample.client 0 Sample.net_ok) Sample.empty_world))
  = (Ok (mkNB (Some [Sample.art "news" "Fed raises rates" (Some "Jane")])
           (Some [Sample.art "blogs" "Fed raises rates" (Some "Jane")])),
     snd (fetchNewsAndBlogs (Sample.client 0 Sample.net_ok) Sample.empty_world)).
Proof.
  apply (fetchNewsAndBlogs_second_call_is_served_from_cache
           (Sample.client 0 Sample.net_ok) (Sample.client 1000 Sample.net_down)
           Sample.empty_world); try reflexivity.
Defined.

Lemma fetchNews_throw_store env w w' :
  fetchNews env w = (Throw, w') -> store w' = store w.
Proof.
  unfold fetchNews, fetchNews_remote. run_eff.
  destruct (browser env); simpl.
  - destruct (store w !! "newsapi_news") as [c |]; [destruct (fresh env c) |];
      try discriminate;
      destruct (network env TopHeadlines) as [| [] [| d]]; simpl;
      try (intros [= <-]; reflexivity); discriminate.
  - destruct (network env TopHeadlines) as [| [] [| d]]; simpl;
      try (intros [= <-]; reflexivity); discriminate.
Qed.

(** X4: the fetchers write to the store only in a browser and only on
    success: without a [window] (server-side rendering) the store is never
    touched, and a call that fails, anywhere, leaves the store as it was. *)
Theorem fetchers_write_only_on_client_success (env : Env) (w : World) :
  (browser env = false ->
     store (snd (fetchNews env w)) = store w
     /\ store (snd (fetchNewsAndBlogs env w)) = store w)
  /\ (fst (fetchNews env w) = Throw -> store (snd (fetchNews env w)) = store w)
  /\ (fst (fetchNewsAndBlogs env w) = Throw ->
      store (snd (fetchNewsAndBlogs env w)) = store w).
Proof.
  split; [| split].
  - intros Hb. split.
    + rewrite (fetchNews_miss env w (or_introl Hb)).
      unfold fetchNews_remote. run_eff. rewrite Hb.
      destruct (network env TopHeadlines) as [| [] [| d]]; reflexivity.
    + rewrite (fetchNewsAndBlogs_miss env w (or_introl Hb)).
      unfold fetchNewsAndBlogs_remote. run_eff. rewrite Hb.
      destruct (network env (TopHeadlinesIn "technology")) as [| ok1 [| d1]];
        simpl; try reflexivity.
      destruct (network env (TopHeadlinesIn "general")) as [| ok2 [| d2]];
        reflexivity.
  - destruct (fetchNews env w) as [[r |] w'] eqn:E; simpl; [discriminate |].
    intros _. exact (fetchNews_throw_store env w w' E).
  - destruct (fetchNewsAndBlogs env w) as [[r |] w'] eqn:E; simpl; [discriminate |].
    intros _. exact (fetchNewsAndBlogs_throw_store env w w' E).
Qed.

Lemma fetchers_write_only_on_client_success_witness :
  store (snd (fetchNewsAndBlogs (Sample.server Sample.net_ok) Sample.empty_world))
  = store Sample.empty_world.
Proof.
  destruct (fetchers_write_only_on_client_success (Sample.server Sample.net_ok)
              Sample.empty_world) as [H _].
  exact (proj2 (H eq_refl)).
Defined.

(** X5: once past the cache, [fetchNews] succeeds exactly when the provider
    answers with a success status and a JSON body; it then resolves to the
    mapped articles and, in a browser, stores them with the current clock.
    Whatever happens, one call of [fetchNews] issues at most one request. *)
Theorem fetchNews_remote_outcome (env : Env) (w : World) :
  (forall r w',
     fetchNews_remote env w = (Ok r, w') <->
     exists d,
       network env TopHeadlines = Response true (BodyData d)
       /\ r = Some (mapArticles "news" d)
       /\ w' = mkWorld
                 (if browser env
                  then <["newsapi_news" :=
                         mkCache (Some (mapArticles "news" d)) None None (now env)]>
                         (store w)
                  else store w)
                 (requests w ++ [TopHeadlines]))
  /\ (requests (snd (fetchNews env w)) = requests w
      \/ requests (snd (fetchNews env w)) = requests w ++ [TopHeadlines]).
Proof.
  split.
  - intros r w'. unfold fetchNews_remote. run_eff.
    destruct (network env TopHeadlines) as [| [] [| d]]; simpl.
    + split; [discriminate | intros (d & H & _); discriminate].
    + split; [discriminate | intros (d & H & _); discriminate].
    + destruct (browser env); simpl; split.
      * intros [= <- <-]. exists d. auto.
      * intros (d' & [= <-] & -> & ->). reflexivity.
      * intros [= <- <-]. exists d. auto.
      * intros (d' & [= <-] & -> & ->). reflexivity.
    + split; [discriminate | intros (d & H & _); discriminate].
    + split; [discriminate | intros (d' & H & _); discriminate].
  - unfold fetchNews. run_eff.
    destruct (browser env); simpl.
    + destruct (store w !! "newsapi_news") as [c |]; [destruct (fresh env c) |];
        simpl; auto; right; apply fetchNews_remote_requests.
    + right. apply fetchNews_remote_requests.
Qed.

Lemma fetchNews_remote_outcome_witness :
  exists d,
    network (Sample.server Sample.net_ok) TopHeadlines = Response true (BodyData d)
    /\ Some [Sample.art "news" "Fed raises rates" (Some "Jane")]
       = Some (mapArticles "news" d)
    /\ mkWorld ∅ [TopHeadlines]
       = mkWorld (store Sample.empty_world)
           (requests Sample.empty_world ++ [TopHeadlines]).
Proof.
  destruct (fetchNews_remote_outcome (Sample.server Sample.net_ok) Sample.empty_world)
    as [H _].
  apply (proj1 (H (Some [Sample.art "news" "Fed raises rates" (Some "Jane")])
                  (mkWorld ∅ [TopHeadlines]))).
  reflexivity.
Defined.

(** X6: once past the cache, [fetchNewsAndBlogs] succeeds exactly when both
    category requests are answered with a JSON body, whatever their status.
    The requests go out one after the other: when the technology request
    fails, or its body is not JSON, the general request is never issued. *)
Theorem fetchNewsAndBlogs_remote_outcome (env : Env) (w : World) :
  (forall r w',
     fetchNewsAndBlogs_remote env w = (Ok r, w') <->
     exists ok1 ok2 d1 d2,
       network env (TopHeadlinesIn "technology") = Response ok1 (BodyData d1)
       /\ network env (TopHeadlinesIn "general") = Response ok2 (BodyData d2)
       /\ r = mkNB (Some (mapArticles "news" d1)) (Some (mapArticles "blogs" d2))
       /\ w' = mkWorld
                 (if browser env
                  then <["newsapi_news_blogs" :=
                         mkCache None (Some (mapArticles "news" d1))
                           (Some (mapArticles "blogs" d2)) (now env)]> (store w)
                  else store w)
                 (requests w ++ [TopHeadlinesIn "technology"; TopHeadlinesIn "general"]))
  /\ ((network env (TopHeadlinesIn "technology") = NetworkError
       \/ exists ok, network env (TopHeadlinesIn "technology") = Response ok BodyInvalid) ->
      fetchNewsAndBlogs_remote env w
      = (Throw, mkWorld (store w) (requests w ++ [TopHeadlinesIn "technology"]))).
Proof.
  split.
  - intros r w'. split.
    + unfold fetchNewsAndBlogs_remote. run_eff.
      destruct (network env (TopHeadlinesIn "technology")) as [| ok1 [| d1]];
        simpl; try discriminate.
      destruct (network env (TopHeadlinesIn "general")) as [| ok2 [| d2]];
        simpl; try discriminate.
      rewrite <- app_assoc. simpl.
      destruct (browser env); simpl; intros [= <- <-]; exists ok1, ok2, d1, d2; auto.
    + intros (ok1 & ok2 & d1 & d2 & H1 & H2 & -> & ->).
      apply fetchNewsAndBlogs_remote_any_status with (ok1 := ok1) (ok2 := ok2);
        assumption.
  - intros [H | [ok H]]; unfold fetchNewsAndBlogs_remote; run_eff; rewrite H;
      reflexivity.
Qed.

Lemma fetchNewsAndBlogs_remote_outcome_witness :
  fetchNewsAndBlogs_remote (Sample.server Sample.net_down) Sample.empty_world
  = (Throw, mkWorld (store Sample.empty_world)
              (requests Sample.empty_world ++ [TopHeadlinesIn "technology"])).
Proof.
  destruct (fetchNewsAndBlogs_remote_outcome (Sample.server Sample.net_down)
              Sample.empty_world) as [_ H].
  apply H. left. reflexivity.
Defined.

(** ** The filter state *)

(** X7: [resetFilters] puts author, search term and both dates back to
    their defaults and keeps the type; doing it twice changes nothing more.
    The dashboard's type-change effect, which dispatches [resetFilters] and
    then [setType] with the current type, amounts to one [resetFilters]: it
    keeps the type, wipes the other four fields whatever they held, and is
    idempotent. *)
Theorem resetFilters_keeps_type_and_is_idempotent (state : FiltersSlice.FiltersState) :
  FiltersSlice.resetFilters state
    = FiltersSlice.mkFilters (FiltersSlice.type state) "" "All" "" ""
  /\ FiltersSlice.resetFilters (FiltersSlice.resetFilters state)
     = FiltersSlice.resetFilters state
  /\ Home.resetOnTypeChange state = FiltersSlice.resetFilters state
  /\ Home.resetOnTypeChange (Home.resetOnTypeChange state)
     = Home.resetOnTypeChange state
  /\ (forall t, FiltersSlice.resetFilters (FiltersSlice.setType state t)
                = FiltersSlice.setType state t).
Proof. destruct state. repeat split. Qed.

Lemma reducer_type_frame state a :
  (forall t, a <> FiltersSlice.SetType t) ->
  FiltersSlice.type (FiltersSlice.reducer state a) = FiltersSlice.type state.
Proof.
  intros H. destruct a; try reflexivity. exfalso. now apply (H payload).
Qed.

(** X8: the type of the filter state changes through [setType] only: a
    sequence of actions without [setType] leaves it as it was, and after a
    [setType t] it stays [t] until the next [setType].  Likewise the search
    term is the payload of the last [setSearchTerm] as long as no [setType],
    [resetFilters] or [setSearchTerm] follows. *)
Theorem filter_fields_follow_their_last_writer
    (state : FiltersSlice.FiltersState) (before after : list FiltersSlice.Action) :
  (Forall (fun a => forall t, a <> FiltersSlice.SetType t) after ->
     FiltersSlice.type (fold_left FiltersSlice.reducer after state)
     = FiltersSlice.type state)
  /\ (forall t,
     Forall (fun a => forall t', a <> FiltersSlice.SetType t') after ->
     FiltersSlice.type
       (fold_left FiltersSlice.reducer (before ++ FiltersSlice.SetType t :: after) state)
     = t)
  /\ (forall s,
     Forall (fun a => (forall t, a <> FiltersSlice.SetType t)
                      /\ a <> FiltersSlice.ResetFilters
                      /\ (forall s', a <> FiltersSlice.SetSearchTerm s')) after ->
     FiltersSlice.searchTerm
       (fold_left FiltersSlice.reducer
          (before ++ FiltersSlice.SetSearchTerm s :: after) state)
     = s).
Proof.
  assert (Htype : forall l st,
            Forall (fun a => forall t, a <> FiltersSlice.SetType t) l ->
            FiltersSlice.type (fold_left FiltersSlice.reducer l st)
            = FiltersSlice.type st).
  { induction l as [| a l IH]; intros st Hl; [reflexivity |].
    apply Forall_cons in Hl as [Ha Hl]. simpl. rewrite (IH _ Hl).
    now apply reducer_type_frame. }
  assert (Hsearch : forall l st,
            Forall (fun a => (forall t, a <> FiltersSlice.SetType t)
                             /\ a <> FiltersSlice.ResetFilters
                             /\ (forall s', a <> FiltersSlice.SetSearchTerm s')) l ->
            FiltersSlice.searchTerm (fold_left FiltersSlice.reducer l st)
            = FiltersSlice.searchTerm st).
  { induction l as [| a l IH]; intros st Hl; [reflexivity |].
    apply Forall_cons in Hl as [(Ha1 & Ha2 & Ha3) Hl]. simpl. rewrite (IH _ Hl).
    destruct a; try reflexivity.
    - exfalso. now apply (Ha1 payload).
    - exfalso. now apply (Ha3 payload).
    - exfalso. now apply Ha2. }
  split; [| split].
  - apply Htype.
  - intros t Hl. rewrite fold_left_app. simpl. rewrite (Htype _ _ Hl). reflexivity.
  - intros s Hl. rewrite fold_left_app. simpl. rewrite (Hsearch _ _ Hl). reflexivity.
Qed.

Lemma filter_fields_follow_their_last_writer_witness :
  FiltersSlice.type
    (fold_left FiltersSlice.reducer
       ([FiltersSlice.SetSearchTerm "fed"]
        ++ FiltersSlice.SetType FiltersSlice.blogs
           :: [FiltersSlice.SetSelectedAuthor "Jane"; FiltersSlice.ResetFilters])
       FiltersSlice.initialState)
  = FiltersSlice.blogs.
Proof.
  destruct (filter_fields_follow_their_last_writer FiltersSlice.initialState
              [FiltersSlice.SetSearchTerm "fed"]
              [FiltersSlice.SetSelectedAuthor "Jane"; FiltersSlice.ResetFilters])
    as (_ & H & _).
  apply H. repeat constructor; discriminate.
Defined.

(** ** The dashboard's filtered view and dropdowns *)

Lemma includes_empty s : JS.includes s "" = true.
Proof. destruct s; reflexivity. Qed.

Lemma passes_default newDate ty a :
  Home.passes newDate (FiltersSlice.mkFilters ty "" "All" "" "") a = true.
Proof.
  unfold Home.passes, Home.matchesSearch, Home.matchesAuthor, Home.matchesStart,
    Home.matchesEnd. simpl. rewrite includes_empty. reflexivity.
Qed.

Lemma filter_all_true {A} (f : A -> bool) (l : list A) :
  (forall a, f a = true) -> List.filter f l = l.
Proof.
  intros H. induction l as [| a l IH]; simpl; [reflexivity |].
  rewrite H, IH. reflexivity.
Qed.

(** X9: with the filters at their defaults nothing is filtered out.  After
    [setType], after [resetFilters] and in the initial state the dashboard
    lists every article it is given, in the same order, whatever the titles,
    authors and dates are, also invalid dates. *)
Theorem default_filters_show_every_article
    (newDate : string -> JS.Date) (state : FiltersSlice.FiltersState)
    (t : FiltersSlice.FilterType) (articlesToUse : list Article) :
  Home.filtered newDate (FiltersSlice.setType state t) articlesToUse = articlesToUse
  /\ Home.filtered newDate (FiltersSlice.resetFilters state) articlesToUse
     = articlesToUse
  /\ Home.filtered newDate FiltersSlice.initialState articlesToUse = articlesToUse.
Proof.
  unfold Home.filtered. repeat split; apply filter_all_true; intros a;
    destruct state; apply passes_default.
Qed.

Lemma lower_char_idem c : JS.lower_char (JS.lower_char c) = JS.lower_char c.
Proof. destruct c as [[] [] [] [] [] [] [] []]; reflexivity. Qed.

Lemma toLowerCase_idem s : JS.toLowerCase (JS.toLowerCase s) = JS.toLowerCase s.
Proof.
  induction s as [| c s IH]; simpl; [reflexivity |].
  rewrite lower_char_idem, IH. reflexivity.
Qed.

(** X10: the search ignores the case of letters on both sides: lowering the
    search term, or the title and description of the article, does not change
    whether the article passes the filters. *)
Theorem search_ignores_case
    (newDate : string -> JS.Date) (filters : FiltersSlice.FiltersState) (a : Article) :
  Home.passes newDate
    (FiltersSlice.setSearchTerm filters
       (JS.toLowerCase (FiltersSlice.searchTerm filters))) a
  = Home.passes newDate filters a
  /\ Home.passes newDate filters
       (mkArticle (JS.toLowerCase (title a)) (JS.toLowerCase <$> description a)
          (url a) (urlToImage a) (author a) (publishedAt a) (source a) (type a))
     = Home.passes newDate filters a.
Proof.
  unfold Home.passes, Home.matchesSearch, Home.matchesAuthor, Home.matchesStart,
    Home.matchesEnd. simpl. split.
  - rewrite !toLowerCase_idem. reflexivity.
  - destruct (description a); simpl; rewrite !toLowerCase_idem; reflexivity.
Qed.

Lemma uniq_into_spec xs : forall seen,
  NoDup seen ->
  NoDup (JS.uniq_into seen xs)
  /\ (forall x, x ∈ JS.uniq_into seen xs <-> x ∈ seen \/ x ∈ xs).
Proof.
  induction xs as [| y xs IH]; intros seen Hnd; simpl.
  - split; [exact Hnd |]. intros x. rewrite elem_of_nil. tauto.
  - destruct (bool_decide (y ∈ seen)) eqn:E.
    + apply bool_decide_eq_true in E.
      destruct (IH seen Hnd) as [H1 H2]. split; [exact H1 |].
      intros x. rewrite H2, elem_of_cons. split; [tauto |].
      intros [H | [-> | H]]; auto.
    + apply bool_decide_eq_false in E.
      assert (Hnd' : NoDup (seen ++ [y])).
      { apply NoDup_app. split; [exact Hnd |]. split; [| apply NoDup_singleton].
        intros x Hx Hy. apply list_elem_of_singleton in Hy. subst. contradiction. }
      destruct (IH _ Hnd') as [H1 H2]. split; [exact H1 |].
      intros x. rewrite H2, elem_of_app, list_elem_of_singleton, elem_of_cons. tauto.
Qed.

Lemma uniq_spec xs :
  NoDup (JS.uniq xs) /\ (forall x, x ∈ JS.uniq xs <-> x ∈ xs).
Proof.
  destruct (uniq_into_spec xs [] (NoDup_nil_2)) as [H1 H2]. split; [exact H1 |].
  intros x. unfold JS.uniq. rewrite H2, elem_of_nil. tauto.
Qed.

(** X11: the author dropdown starts with ["All"], followed by the
    normalised authors of the articles, each exactly once; every article can
    be reached through it: selecting the normalised author of an article,
    with the other filters at their defaults, keeps that article in the
    filtered list.  The payout page's author dropdown and the analytics
    page's author list are built the same way. *)
Theorem author_dropdown_lists_each_author_once
    (newDate : string -> JS.Date) (state : FiltersSlice.FiltersState)
    (articles : list Article) :
  (exists rest, Home.authors articles = "All" :: rest
     /\ NoDup rest
     /\ (forall x, x ∈ rest <->
           exists a, a ∈ articles /\ JS.orUnknown (author a) = x)
     /\ AdminPayout.authors articles = "All" :: rest
     /\ NewsAnalytics.allAuthors articles = rest)
  /\ (forall a, In a articles ->
        In a (Home.filtered newDate
                (FiltersSlice.setSelectedAuthor (FiltersSlice.resetFilters state)
                   (JS.orUnknown (author a)))
                articles)).
Proof.
  split.
  - eexists. split; [reflexivity |].
    destruct (uniq_spec (map (fun a => JS.orUnknown (author a)) articles)) as [H1 H2].
    split; [exact H1 |]. split; [| split; reflexivity].
    intros x. rewrite H2, list_elem_of_fmap. split.
    + intros (a & -> & Ha). eauto.
    + intros (a & Ha & <-). eauto.
  - intros a Ha. unfold Home.filtered. apply filter_In. split; [exact Ha |].
    destruct state. unfold Home.passes, Home.matchesSearch, Home.matchesAuthor,
      Home.matchesStart, Home.matchesEnd. simpl.
    rewrite includes_empty,
      (bool_decide_eq_true_2 (JS.orUnknown (author a) = JS.orUnknown (author a)))
      by reflexivity.
    rewrite orb_true_r. reflexivity.
Qed.

Lemma author_dropdown_lists_each_author_once_witness :
  In Sample.fed_article
    (Home.filtered JS.newDate_iso
       (FiltersSlice.setSelectedAuthor
          (FiltersSlice.resetFilters Sample.jane_filters) "Jane")
       [Sample.anonymous_article; Sample.fed_article]).
Proof.
  destruct (author_dropdown_lists_each_author_once JS.newDate_iso Sample.jane_filters
              [Sample.anonymous_article; Sample.fed_article]) as [_ H].
  apply (H Sample.fed_article). simpl. right. left. reflexivity.
Defined.

(** ** Grouping, rates and exports of the payout page *)

Section GroupingTotals.
Import AdminPayout.

Lemma count_sum_app m m' : count_sum (m ++ m') = count_sum m + count_sum m'.
Proof.
  unfold count_sum. induction m as [| kg m IH]; simpl; [reflexivity |].
  rewrite IH. lia.
Qed.

Lemma count_sum_ensure key au ty m :
  count_sum (ensure_group key au ty m) = count_sum m.
Proof.
  unfold ensure_group. destruct (lookup_group key m); [reflexivity |].
  rewrite count_sum_app. unfold count_sum. simpl. lia.
Qed.

Lemma count_sum_bump key : forall m,
  is_Some (lookup_group key m) ->
  count_sum (bump_group key m) = count_sum m + 1.
Proof.
  induction m as [| [k g] m IH]; simpl; intros [g0 H]; [discriminate |].
  destruct (bool_decide (k = key)).
  - unfold count_sum. simpl. lia.
  - unfold count_sum in *. simpl. rewrite IH by eauto. lia.
Qed.

Lemma count_sum_step m a : count_sum (group_step m a) = count_sum m + 1.
Proof.
  unfold group_step. rewrite count_sum_bump.
  - rewrite count_sum_ensure. reflexivity.
  - rewrite lookup_ensure_group. destruct (lookup_group _ m); [eauto |].
    rewrite bool_decide_eq_true_2 by reflexivity. eauto.
Qed.

Lemma keys_group_step m a :
  map fst (group_step m a)
  = if bool_decide (keyOf a ∈ map fst m) then map fst m
    else map fst m ++ [keyOf a].
Proof.
  unfold group_step. fold (keyOf a). rewrite keys_bump_group. unfold ensure_group.
  destruct (lookup_group (keyOf a) m) eqn:E.
  - rewrite bool_decide_eq_true_2; [reflexivity |].
    destruct (decide (keyOf a ∈ map fst m)) as [H | H]; [exact H |].
    rewrite list_elem_of_In in H. apply lookup_group_None in H. congruence.
  - rewrite bool_decide_eq_false_2.
    + rewrite map_app. reflexivity.
    + rewrite list_elem_of_In. now apply lookup_group_None.
Qed.

Lemma keys_fold_group_step arts : forall m,
  map fst (fold_left group_step arts m)
  = JS.uniq_into (map fst m) (map keyOf arts).
Proof.
  induction arts as [| a arts IH]; intros m; simpl; [reflexivity |].
  rewrite IH, keys_group_step.
  destruct (bool_decide (keyOf a ∈ map fst m)); reflexivity.
Qed.

Lemma count_sum_fold arts : forall m,
  count_sum (fold_left group_step arts m) = count_sum m + Z.of_nat (length arts).
Proof.
  induction arts as [| a arts IH]; intros m; simpl length; simpl fold_left.
  - simpl. lia.
  - rewrite IH, count_sum_step. lia.
Qed.

Lemma grouped_entry_article arts key g :
  In (key, g) (grouped arts) ->
  exists a, In a arts /\ g_author g = JS.orUnknown (author a) /\ g_type g = type a.
Proof.
  intros Hin. apply In_lookup_group in Hin; [| apply NoDup_grouped].
  rewrite lookup_grouped in Hin.
  destruct (List.find _ arts) as [a |] eqn:Hf; [| discriminate].
  injection Hin as <-. apply find_some in Hf as [Ha _]. exists a. auto.
Qed.

End GroupingTotals.

(** X12: grouping counts every article exactly once: the counts of all
    groups add up to the number of articles grouped.  The groups, and with
    them the rows of the table and of the exports, come in the order in which
    their keys first occur among the articles, one row per distinct key. *)
Theorem grouped_counts_add_up (payoutRates : gmap string JS.Num) (arts : list Article) :
  AdminPayout.count_sum (AdminPayout.grouped arts) = Z.of_nat (length arts)
  /\ map fst (AdminPayout.grouped arts) = JS.uniq (map AdminPayout.keyOf arts)
  /\ map (fun r => AdminPayout.AuthorTypeKey (AdminPayout.r_author r) (AdminPayout.r_type r))
       (AdminPayout.rows payoutRates (AdminPayout.grouped arts))
     = JS.uniq (map AdminPayout.keyOf arts).
Proof.
  assert (Hkeys : map fst (AdminPayout.grouped arts)
                  = JS.uniq (map AdminPayout.keyOf arts)).
  { unfold AdminPayout.grouped. rewrite keys_fold_group_step. reflexivity. }
  split; [| split].
  - unfold AdminPayout.grouped. rewrite count_sum_fold. reflexivity.
  - exact Hkeys.
  - rewrite <- Hkeys. unfold AdminPayout.rows. rewrite map_map.
    apply map_ext_in. intros [k g] Hin. simpl.
    now destruct (grouped_entry arts k g Hin) as (_ & _ & H).
Qed.

Lemma filteredArticles_In au ty l a :
  In a (AdminPayout.filteredArticles au ty l) <->
  In a l /\ (au = "All" \/ JS.orUnknown (author a) = au)
  /\ (ty = "All" \/ type a = ty).
Proof.
  unfold AdminPayout.filteredArticles.
  rewrite filter_In, andb_true_iff, !orb_true_iff, !bool_decide_eq_true. tauto.
Qed.

(** X13: the payout filters compose with the grouping.  With both
    selections at ["All"] every article is grouped.  With an author selected,
    every group shown is of that author; with a type selected, every group is
    of that type; and every group stems from an article of the page. *)
Theorem payout_filters_restrict_the_groups
    (selectedAuthor selectedType : string) (articles : list Article) :
  AdminPayout.filteredArticles "All" "All" articles = articles
  /\ (forall key g,
     In (key, g)
       (AdminPayout.grouped
          (AdminPayout.filteredArticles selectedAuthor selectedType articles)) ->
     (selectedAuthor <> "All" -> AdminPayout.g_author g = selectedAuthor)
     /\ (selectedType <> "All" -> AdminPayout.g_type g = selectedType)
     /\ exists a, In a articles
          /\ AdminPayout.g_author g = JS.orUnknown (author a)
          /\ AdminPayout.g_type g = type a).
Proof.
  split.
  - unfold AdminPayout.filteredArticles. apply filter_all_true. reflexivity.
  - intros key g Hin.
    destruct (grouped_entry_article _ key g Hin) as (a & Ha & Hau & Hty).
    apply filteredArticles_In in Ha as (Ha & Hsa & Hst).
    rewrite Hau, Hty. repeat split.
    + intros Hne. destruct Hsa; [contradiction | assumption].
    + intros Hne. destruct Hst; [contradiction | assumption].
    + eauto.
Qed.

Lemma payout_filters_restrict_the_groups_witness :
  (("Jane" : string) <> "All" -> AdminPayout.g_author (AdminPayout.mkGroup "Jane" "blogs" 1) = "Jane")
  /\ (("blogs" : string) <> "All" -> AdminPayout.g_type (AdminPayout.mkGroup "Jane" "blogs" 1) = "blogs")
  /\ exists a, In a Sample.jane_articles
       /\ AdminPayout.g_author (AdminPayout.mkGroup "Jane" "blogs" 1)
          = JS.orUnknown (author a)
       /\ AdminPayout.g_type (AdminPayout.mkGroup "Jane" "blogs" 1) = type a.
Proof.
  destruct (payout_filters_restrict_the_groups "Jane" "blogs" Sample.jane_articles)
    as [_ H].
  apply (H "Jane|||blogs"). simpl. left. reflexivity.
Defined.

(** X14: an edit of a rate is local to its group.  An accepted value becomes
    the rate of the edited group; the rate of every other key, and so of
    every other author and type pair with a type label, is what it was; a
    rejected value changes no rate at all; and of two accepted edits of one
    group the later one wins. *)
Theorem rate_edits_are_local
    (Number : string -> JS.Num) (author type value : string)
    (rates : gmap string JS.Num) :
  (JS.nonNegative (Number value) ->
     AdminPayout.rateOf (AdminPayout.handleRateChange Number author type value rates)
       (AdminPayout.AuthorTypeKey author type)
     = Number value)
  /\ (forall key, key <> AdminPayout.AuthorTypeKey author type ->
     AdminPayout.rateOf (AdminPayout.handleRateChange Number author type value rates) key
     = AdminPayout.rateOf rates key)
  /\ (forall author' type',
     (type = "news" \/ type = "blogs") -> (type' = "news" \/ type' = "blogs") ->
     (author', type') <> (author, type) ->
     AdminPayout.rateOf (AdminPayout.handleRateChange Number author type value rates)
       (AdminPayout.AuthorTypeKey author' type')
     = AdminPayout.rateOf rates (AdminPayout.AuthorTypeKey author' type'))
  /\ (JS.isNaN (Number value) = true \/ JS.ge0 (Number value) = false ->
     forall key,
       AdminPayout.rateOf (AdminPayout.handleRateChange Number author type value rates) key
       = AdminPayout.rateOf rates key)
  /\ (forall value0, JS.nonNegative (Number value) ->
     AdminPayout.handleRateChange Number author type value
       (AdminPayout.handleRateChange Number author type value0 rates)
     = AdminPayout.handleRateChange Number author type value rates).
Proof.
  assert (Hother : forall key, key <> AdminPayout.AuthorTypeKey author type ->
            AdminPayout.rateOf
              (AdminPayout.handleRateChange Number author type value rates) key
            = AdminPayout.rateOf rates key).
  { intros key Hne. unfold AdminPayout.handleRateChange, AdminPayout.rateOf.
    destruct (negb (JS.isNaN (Number value)) && JS.ge0 (Number value));
      [| reflexivity].
    rewrite lookup_insert_ne by congruence. reflexivity. }
  split; [| split; [| split; [| split]]].
  - intros Hv. rewrite handleRateChange_accepts by exact Hv.
    unfold AdminPayout.rateOf. rewrite lookup_insert_eq. reflexivity.
  - exact Hother.
  - intros author' type' Ht Ht' Hne. apply Hother. intros Hk.
    apply AuthorTypeKey_inj in Hk as [-> ->]; [| assumption ..]. now apply Hne.
  - intros Hrej key. rewrite handleRateChange_rejects by exact Hrej. reflexivity.
  - intros value0 Hv. rewrite !(handleRateChange_accepts Number author type value)
      by exact Hv.
    unfold AdminPayout.handleRateChange.
    destruct (negb (JS.isNaN (Number value0)) && JS.ge0 (Number value0));
      [| reflexivity].
    apply insert_insert_eq.
Qed.

Lemma rate_edits_are_local_witness :
  AdminPayout.rateOf
    (AdminPayout.handleRateChange JS.Number_decimal "Jane" "news" "3" ∅)
    (AdminPayout.AuthorTypeKey "Jane" "blogs")
  = AdminPayout.rateOf ∅ (AdminPayout.AuthorTypeKey "Jane" "blogs").
Proof.
  destruct (rate_edits_are_local JS.Number_decimal "Jane" "news" "3" ∅)
    as (_ & _ & H & _).
  apply (H "Jane" "blogs"); [left; reflexivity | right; reflexivity | discriminate].
Defined.

Lemma string_app_assoc (a b c : string) : (a +:+ b) +:+ c = a +:+ b +:+ c.
Proof.
  induction a as [| x a IH]; [reflexivity |].
  rewrite !app_cons, IH. reflexivity.
Qed.

Lemma read_body_escape s : forall rest,
  CsvReader.no_leading_quote rest ->
  CsvReader.read_body
    (AdminPayout.csv_escape s +:+ String AdminPayout.dq rest)
  = Some (s, rest).
Proof.
  induction s as [| c s IH]; intros rest Hrest.
  - change (CsvReader.read_body (String AdminPayout.dq rest) = Some ("", rest)).
    simpl. destruct rest as [| c2 rest']; [reflexivity |].
    simpl in Hrest. rewrite bool_decide_eq_false_2 by exact Hrest. reflexivity.
  - simpl AdminPayout.csv_escape.
    destruct (bool_decide (c = AdminPayout.dq)) eqn:E.
    + apply bool_decide_eq_true in E. subst c. rewrite !app_cons.
      change (CsvReader.read_body
                (String AdminPayout.dq (String AdminPayout.dq ?x)))
        with (match CsvReader.read_body x with
              | Some (cell, r) => Some (String AdminPayout.dq cell, r)
              | None => None
              end).
      rewrite (IH rest Hrest). reflexivity.
    + rewrite app_cons. cbn [CsvReader.read_body]. rewrite E.
      rewrite (IH rest Hrest). reflexivity.
Qed.

Lemma read_quoted_quote s rest :
  CsvReader.no_leading_quote rest ->
  CsvReader.read_quoted (AdminPayout.csv_quote s +:+ rest) = Some (s, rest).
Proof.
  intros Hrest. unfold AdminPayout.csv_quote. rewrite app_cons, string_app_assoc.
  rewrite app_cons. change ("" +:+ rest) with rest.
  unfold CsvReader.read_quoted. rewrite bool_decide_eq_true_2 by reflexivity.
  now apply read_body_escape.
Qed.

(** X15: the quoting of the CSV export loses nothing.  A reader that takes a
    pair of double quotes for one and a single one for the end of the cell
    gets back exactly the string that was quoted, with whatever follows the
    cell left over; so two different strings never get the same cell text,
    and the author of an exported row is read back as it is, also when it
    holds commas, line breaks or double quotes. *)
Theorem csv_quote_round_trip :
  (forall s rest,
     CsvReader.no_leading_quote rest ->
     CsvReader.read_quoted (AdminPayout.csv_quote s +:+ rest) = Some (s, rest))
  /\ (forall s1 s2, AdminPayout.csv_quote s1 = AdminPayout.csv_quote s2 -> s1 = s2)
  /\ (forall numberToString r,
     CsvReader.read_quoted
       (AdminPayout.csv_line numberToString (AdminPayout.csv_cells r))
     = Some (AdminPayout.r_author r,
             "," +:+ AdminPayout.csv_quote (AdminPayout.r_type r)
             +:+ "," +:+ numberToString (JS.ofZ (AdminPayout.r_count r))
             +:+ "," +:+ numberToString (AdminPayout.r_rate r)
             +:+ "," +:+ AdminPayout.csv_quote (AdminPayout.r_total r))).
Proof.
  split; [| split].
  - apply read_quoted_quote.
  - intros s1 s2 H.
    pose proof (read_quoted_quote s1 "" I) as H1.
    pose proof (read_quoted_quote s2 "" I) as H2.
    rewrite H in H1. rewrite H1 in H2. congruence.
  - intros numberToString r. unfold AdminPayout.csv_line, AdminPayout.csv_cells.
    cbn [map AdminPayout.join AdminPayout.csv_cell].
    apply read_quoted_quote. simpl. discriminate.
Qed.

Lemma csv_quote_round_trip_witness :
  CsvReader.read_quoted (AdminPayout.csv_quote "Doe, Jane" +:+ ",rest")
  = Some ("Doe, Jane", ",rest").
Proof.
  destruct csv_quote_round_trip as [H _].
  apply H. simpl. discriminate.
Defined.

(** X16: the spreadsheet export posts the rows in their order and stops at the
    first row that fails.  When every row is accepted, all rows are posted
    and the success alert is shown; when a row is answered with an error
    status, or its request fails, that row is the last one posted and the
    alert names the failure.  In every case the export ends with the
    exporting flag lowered. *)
Theorem sheet_export_stops_at_first_failure
    (post : AdminPayout.Row -> AdminPayout.PostResult) (networkMessage : string)
    (payoutRates : gmap string JS.Num) (m : AdminPayout.GroupMap) :
  (Forall (fun r => post r = AdminPayout.PostResponse true)
     (AdminPayout.rows payoutRates m) ->
   AdminPayout.handleGoogleSheetExport post networkMessage payoutRates m
   = AdminPayout.mkExportRun (AdminPayout.rows payoutRates m)
       AdminPayout.alert_success false)
  /\ (forall sent r rest,
     AdminPayout.rows payoutRates m = sent ++ r :: rest ->
     Forall (fun r => post r = AdminPayout.PostResponse true) sent ->
     (post r = AdminPayout.PostResponse false ->
      AdminPayout.handleGoogleSheetExport post networkMessage payoutRates m
      = AdminPayout.mkExportRun (sent ++ [r])
          (AdminPayout.alert_failure (AdminPayout.export_error r)) false)
     /\ (post r = AdminPayout.PostNetworkError ->
      AdminPayout.handleGoogleSheetExport post networkMessage payoutRates m
      = AdminPayout.mkExportRun (sent ++ [r])
          (AdminPayout.alert_failure networkMessage) false))
  /\ AdminPayout.exporting
       (AdminPayout.handleGoogleSheetExport post networkMessage payoutRates m)
     = false.
Proof.
  assert (Hok : forall rs,
            Forall (fun r => post r = AdminPayout.PostResponse true) rs ->
            AdminPayout.post_rows post networkMessage rs = (rs, None)).
  { induction rs as [| r rs IH]; intros H; [reflexivity |].
    apply Forall_cons in H as [Hr Hrs]. simpl. rewrite Hr, (IH Hrs). reflexivity. }
  assert (Hfail : forall sent r rest,
            Forall (fun r => post r = AdminPayout.PostResponse true) sent ->
            (post r = AdminPayout.PostResponse false ->
             AdminPayout.post_rows post networkMessage (sent ++ r :: rest)
             = (sent ++ [r], Some (AdminPayout.export_error r)))
            /\ (post r = AdminPayout.PostNetworkError ->
             AdminPayout.post_rows post networkMessage (sent ++ r :: rest)
             = (sent ++ [r], Some networkMessage))).
  { induction sent as [| r0 sent IH]; intros r rest H.
    - split; intros Hr; simpl; rewrite Hr; reflexivity.
    - apply Forall_cons in H as [Hr0 Hsent].
      destruct (IH r rest Hsent) as [IH1 IH2].
      split; intros Hr; simpl; rewrite Hr0;
        [rewrite (IH1 Hr) | rewrite (IH2 Hr)]; reflexivity. }
  split; [| split].
  - intros H. unfold AdminPayout.handleGoogleSheetExport. rewrite (Hok _ H).
    reflexivity.
  - intros sent r rest Hrows Hsent.
    destruct (Hfail sent r rest Hsent) as [H1 H2].
    unfold AdminPayout.handleGoogleSheetExport. rewrite Hrows.
    split; intros Hr; [rewrite (H1 Hr) | rewrite (H2 Hr)]; reflexivity.
  - unfold AdminPayout.handleGoogleSheetExport.
    destruct (AdminPayout.post_rows _ _ _) as [sent [msg |]]; reflexivity.
Qed.

Lemma sheet_export_stops_at_first_failure_witness :
  AdminPayout.handleGoogleSheetExport
    (fun r => AdminPayout.PostResponse (bool_decide (AdminPayout.r_type r = "news")))
    "Failed to fetch" ∅ (AdminPayout.grouped Sample.jane_articles)
  = AdminPayout.mkExportRun
      ([AdminPayout.mkRow "Jane" "news" 2 (JS.Fin 2) "4.00"]
       ++ [AdminPayout.mkRow "Jane" "blogs" 1 (JS.Fin 2) "2.00"])
      (AdminPayout.alert_failure
         (AdminPayout.export_error (AdminPayout.mkRow "Jane" "blogs" 1 (JS.Fin 2) "2.00")))
      false.
Proof.
  destruct (sheet_export_stops_at_first_failure
              (fun r => AdminPayout.PostResponse
                          (bool_decide (AdminPayout.r_type r = "news")))
              "Failed to fetch" ∅ (AdminPayout.grouped Sample.jane_articles))
    as (_ & H & _).
  destruct (H [AdminPayout.mkRow "Jane" "news" 2 (JS.Fin 2) "4.00"]
              (AdminPayout.mkRow "Jane" "blogs" 1 (JS.Fin 2) "2.00") [])
    as [Hstatus _].
  - vm_compute. reflexivity.
  - repeat constructor.
  - apply Hstatus. reflexivity.
Defined.

(** ** The page orchestrators, beyond the cached case *)

Lemma Home_hydrate_result env p st w :
  browser env = true ->
  exists n b c w',
    Home.hydrate env p st w
    = (Ok (Home.mkState (Some n) (Some b) (Home.apiError st)
             (if has_news_blogs (store w !! Home.KEY)
              then Some (mkNB (Some n) (Some b)) else None)), w')
    /\ store w' !! Home.KEY = Some c /\ c_news c = Some n /\ c_blogs c = Some b
    /\ requests w' = requests w
    /\ (has_news_blogs (store w !! Home.KEY) = true -> w' = w).
Proof.
  intros Hb. destruct (has_news_blogs (store w !! Home.KEY)) eqn:Hv.
  - destruct (proj1 (has_news_blogs_true _) Hv) as (c & n & b & Hc & Hn & Hbl).
    exists n, b, c, w. rewrite (Home_hydrate_cached env p st w c n b Hb Hc Hn Hbl).
    auto 10.
  - rewrite (Home_hydrate_uncached env p st w Hb Hv).
    do 4 eexists. split; [reflexivity |]. simpl.
    rewrite lookup_insert_eq. repeat split; try reflexivity. discriminate.
Qed.

Lemma Analytics_hydrate_result env p st w :
  browser env = true ->
  exists n b c w',
    NewsAnalytics.hydrate env p st w
    = (Ok (NewsAnalytics.mkState (Some n) (Some b)), w')
    /\ store w' !! NewsAnalytics.KEY = Some c /\ c_news c = Some n /\ c_blogs c = Some b
    /\ requests w' = requests w
    /\ (has_news_blogs (store w !! NewsAnalytics.KEY) = true -> w' = w).
Proof.
  intros Hb. destruct (has_news_blogs (store w !! NewsAnalytics.KEY)) eqn:Hv.
  - destruct (proj1 (has_news_blogs_true _) Hv) as (c & n & b & Hc & Hn & Hbl).
    exists n, b, c, w.
    rewrite (Analytics_hydrate_cached env p st w c n b Hb Hc Hn Hbl). auto 10.
  - rewrite (Analytics_hydrate_uncached env p st w Hb Hv).
    do 4 eexists. split; [reflexivity |]. simpl.
    rewrite lookup_insert_eq. repeat split; try reflexivity. discriminate.
Qed.

(** X17: in a browser, hydration always completes, issues no request and
    leaves the page and the store in agreement: afterwards the store holds,
    under the page's key, exactly the batch the page displays.  For the
    dashboard and the analytics page that entry is a valid cached batch. *)
Theorem hydration_leaves_page_and_store_in_agreement (env : Env) (w : World) :
  browser env = true ->
  (forall p st, exists st' w' c,
     Home.hydrate env p st w = (Ok st', w')
     /\ store w' !! Home.KEY = Some c
     /\ c_news c = Home.news st' /\ c_blogs c = Home.blogs st'
     /\ has_news_blogs (store w' !! Home.KEY) = true
     /\ requests w' = requests w)
  /\ (forall p st, exists st' w' c,
     NewsAnalytics.hydrate env p st w = (Ok st', w')
     /\ store w' !! NewsAnalytics.KEY = Some c
     /\ c_news c = NewsAnalytics.news st' /\ c_blogs c = NewsAnalytics.blogs st'
     /\ has_news_blogs (store w' !! NewsAnalytics.KEY) = true
     /\ requests w' = requests w)
  /\ (forall p st, exists st' w' c,
     AdminPayout.hydrate env p st w = (Ok st', w')
     /\ store w' !! AdminPayout.KEY = Some c
     /\ c_articles c = Some (AdminPayout.articles st')
     /\ requests w' = requests w).
Proof.
  intros Hb. split; [| split].
  - intros p st.
    destruct (Home_hydrate_result env p st w Hb)
      as (n & b & c & w' & Hrun & Hc & Hn & Hbl & Hreq & _).
    eexists _, w', c. split; [exact Hrun |]. simpl.
    rewrite Hc. rewrite (has_news_blogs_Some c n b Hn Hbl). auto.
  - intros p st.
    destruct (Analytics_hydrate_result env p st w Hb)
      as (n & b & c & w' & Hrun & Hc & Hn & Hbl & Hreq & _).
    eexists _, w', c. split; [exact Hrun |]. simpl.
    rewrite Hc. rewrite (has_news_blogs_Some c n b Hn Hbl). auto.
  - intros p st. destruct (has_articles (store w !! AdminPayout.KEY)) eqn:Hv.
    + unfold has_articles in Hv.
      destruct (store w !! AdminPayout.KEY) as [c |] eqn:Hc; [| discriminate].
      destruct (c_articles c) as [[| a l] |] eqn:Ha; try discriminate.
      rewrite (Payout_hydrate_cached env p st w c a l Hb Hc Ha).
      eexists _, w, c. split; [reflexivity |]. auto.
    + rewrite (Payout_hydrate_uncached env p st w Hb Hv).
      do 3 eexists. split; [reflexivity |]. simpl.
      rewrite lookup_insert_eq. auto.
Qed.

Lemma hydration_leaves_page_and_store_in_agreement_witness :
  exists st' w' c,
    Home.hydrate (Sample.client 7 Sample.net_down) Sample.home_props
      (Home.initial Sample.home_props) Sample.empty_world = (Ok st', w')
    /\ store w' !! Home.KEY = Some c
    /\ c_news c = Home.news st' /\ c_blogs c = Home.blogs st'
    /\ has_news_blogs (store w' !! Home.KEY) = true
    /\ requests w' = requests Sample.empty_world.
Proof.
  destruct (hydration_leaves_page_and_store_in_agreement
              (Sample.client 7 Sample.net_down) Sample.empty_world eq_refl) as [H _].
  exact (H Sample.home_props (Home.initial Sample.home_props)).
Defined.

Lemma Home_effect_quiet env p e st w c n b :
  browser env = true ->
  store w !! Home.KEY = Some c -> c_news c = Some n -> c_blogs c = Some b ->
  Home.news st = Some n -> Home.blogs st = Some b ->
  exists st', Home.run_effect env p e st w = (Ok st', w)
    /\ Home.news st' = Some n /\ Home.blogs st' = Some b
    /\ Home.apiError st' = Home.apiError st.
Proof.
  intros Hb Hc Hn Hbl Hsn Hsb.
  pose proof (has_news_blogs_Some c n b Hn Hbl) as Hv.
  destruct e; simpl.
  - rewrite (Home_hydrate_cached env p st w c n b) by assumption.
    eexists; split; [reflexivity |]. auto.
  - rewrite Home_refresh_cached by (rewrite Hc; exact Hv). eauto.
  - unfold Home.offline. destruct (browser env && negb (online env)); [| eauto].
    run_eff. rewrite Hc, Hv. simpl. eexists; split; [reflexivity |]. auto.
  - unfold Home.emptyFallback, Home.both_empty. rewrite Hsn, Hsb, Hb. run_eff.
    destruct n as [| ? ?]; [destruct b as [| ? ?] |]; simpl; eauto.
    rewrite Hc, Hv. simpl. eexists; split; [reflexivity |]. auto.
Qed.

Lemma Home_effects_quiet env p es : forall st w c n b,
  browser env = true ->
  store w !! Home.KEY = Some c -> c_news c = Some n -> c_blogs c = Some b ->
  Home.news st = Some n -> Home.blogs st = Some b ->
  exists st', Home.run_effects env p es st w = (Ok st', w)
    /\ Home.news st' = Some n /\ Home.blogs st' = Some b
    /\ Home.apiError st' = Home.apiError st.
Proof.
  induction es as [| e es IH]; intros st w c n b Hb Hc Hn Hbl Hsn Hsb; simpl.
  - exists st. auto.
  - destruct (Home_effect_quiet env p e st w c n b Hb Hc Hn Hbl Hsn Hsb)
      as (st1 & Hrun & Hn1 & Hb1 & He1).
    destruct (IH st1 w c n b Hb Hc Hn Hbl Hn1 Hb1) as (st2 & Hrun2 & Hn2 & Hb2 & He2).
    exists st2. unfold bind. rewrite Hrun. split; [exact Hrun2 |].
    rewrite He2, He1. auto.
Qed.

(** X18: once hydration has run in a browser, the dashboard is quiet.
    Whatever effects run after it, in any order and any number of times,
    online or offline: none of them issues a request or writes to the store,
    none throws, the collections stay those of the hydration, and the error
    flag is never raised, so the data-unavailable page is never shown. *)
Theorem dashboard_is_quiet_after_hydration
    (env : Env) (p : Home.Props) (w : World) (es : list Home.Effect) :
  browser env = true ->
  exists st' sh wh,
    Home.hydrate env p (Home.initial p) w = (Ok sh, wh)
    /\ Home.run_effects env p (Home.Hydrate :: es) (Home.initial p) w = (Ok st', wh)
    /\ requests wh = requests w
    /\ Home.news st' = Home.news sh /\ Home.blogs st' = Home.blogs sh
    /\ Home.unavailable st' = false.
Proof.
  intros Hb.
  destruct (Home_hydrate_result env p (Home.initial p) w Hb)
    as (n & b & c & wh & Hrun & Hc & Hn & Hbl & Hreq & _).
  match type of Hrun with _ = (Ok ?s, _) => set (sh := s) in * end.
  destruct (Home_effects_quiet env p es sh wh c n b Hb Hc Hn Hbl eq_refl eq_refl)
    as (st' & Hrun' & Hn' & Hb' & He').
  exists st', sh, wh. split; [exact Hrun |].
  cbn [Home.run_effects Home.run_effect]. unfold bind at 1. rewrite Hrun.
  split; [exact Hrun' |]. split; [exact Hreq |]. simpl.
  unfold Home.unavailable. rewrite He'. auto.
Qed.

Lemma dashboard_is_quiet_after_hydration_witness :
  exists st' sh wh,
    Home.hydrate (Sample.client 7 Sample.net_ok) Sample.home_props
      (Home.initial Sample.home_props) Sample.empty_world = (Ok sh, wh)
    /\ Home.run_effects (Sample.client 7 Sample.net_ok) Sample.home_props
         (Home.Hydrate :: [Home.Refresh; Home.EmptyFallback; Home.Refresh])
         (Home.initial Sample.home_props) Sample.empty_world = (Ok st', wh)
    /\ requests wh = requests Sample.empty_world
    /\ Home.news st' = Home.news sh /\ Home.blogs st' = Home.blogs sh
    /\ Home.unavailable st' = false.
Proof.
  exact (dashboard_is_quiet_after_hydration (Sample.client 7 Sample.net_ok)
           Sample.home_props Sample.empty_world
           [Home.Refresh; Home.EmptyFallback; Home.Refresh] eq_refl).
Defined.

(** X19: the dashboard and the analytics page share one cache entry: what
    the dashboard's hydration leaves in the store is what the analytics
    page's hydration adopts, at any later time, without a write or a
    request; both pages then show the same news and blogs. *)
Theorem analytics_adopts_what_the_dashboard_cached
    (env env' : Env) (p : Home.Props) (p' : NewsAnalytics.Props)
    (st : Home.State) (st' : NewsAnalytics.State) (w : World) :
  browser env = true -> browser env' = true ->
  exists sh wh,
    Home.hydrate env p st w = (Ok sh, wh)
    /\ NewsAnalytics.hydrate env' p' st' wh
       = (Ok (NewsAnalytics.mkState (Home.news sh) (Home.blogs sh)), wh).
Proof.
  intros Hb Hb'.
  destruct (Home_hydrate_result env p st w Hb)
    as (n & b & c & wh & Hrun & Hc & Hn & Hbl & _).
  do 2 eexists. split; [exact Hrun |]. simpl.
  now apply Analytics_hydrate_cached with (c := c).
Qed.

Lemma analytics_adopts_what_the_dashboard_cached_witness :
  exists sh wh,
    Home.hydrate (Sample.client 0 Sample.net_ok) Sample.home_props
      (Home.initial Sample.home_props) Sample.empty_world = (Ok sh, wh)
    /\ NewsAnalytics.hydrate (Sample.client (3 * HOUR) Sample.net_down)
         Sample.analytics_props (NewsAnalytics.initial Sample.analytics_props) wh
       = (Ok (NewsAnalytics.mkState (Home.news sh) (Home.blogs sh)), wh).
Proof.
  exact (analytics_adopts_what_the_dashboard_cached
           (Sample.client 0 Sample.net_ok) (Sample.client (3 * HOUR) Sample.net_down)
           Sample.home_props Sample.analytics_props
           (Home.initial Sample.home_props)
           (NewsAnalytics.initial Sample.analytics_props)
           Sample.empty_world eq_refl eq_refl).
Defined.

(** X20: the refresh step of the dashboard and of the analytics page, online
    and with nothing under [newsapi_news_blogs], fetches once: exactly the two
    category requests go out, the page shows the mapped articles, and the
    store holds them under the key with the current clock, whatever the
    status of the two responses. *)
Theorem refresh_fetches_once_and_persists
    (env : Env) (w : World) (ok1 ok2 : bool) (d1 d2 : option (list RawItem)) :
  browser env = true -> online env = true ->
  store w !! "newsapi_news_blogs" = None ->
  network env (TopHeadlinesIn "technology") = Response ok1 (BodyData d1) ->
  network env (TopHeadlinesIn "general") = Response ok2 (BodyData d2) ->
  let news := mapArticles "news" d1 in
  let blogs := mapArticles "blogs" d2 in
  let w' := mkWorld
              (<["newsapi_news_blogs" := mkCache None (Some news) (Some blogs) (now env)]>
                 (store w))
              (requests w ++ [TopHeadlinesIn "technology"; TopHeadlinesIn "general"]) in
  (forall st,
     Home.refresh env st w
     = (Ok (Home.mkState (Some news) (Some blogs) (Home.apiError st)
              (Some (mkNB (Some news) (Some blogs)))), w'))
  /\ (forall st,
     NewsAnalytics.refresh env st w
     = (Ok (NewsAnalytics.mkState (Some news) (Some blogs)), w')).
Proof.
  intros Hb Ho Hmiss H1 H2 news blogs w'.
  assert (Hf : fetchNewsAndBlogs env w
               = (Ok (mkNB (Some news) (Some blogs)), w')).
  { rewrite (fetchNewsAndBlogs_miss env w (or_intror Hmiss)).
    rewrite (fetchNewsAndBlogs_remote_any_status env w ok1 ok2 d1 d2 H1 H2).
    rewrite Hb. reflexivity. }
  split; intros st.
  - unfold Home.refresh. rewrite Hb, Ho. simpl.
    unfold bind at 1, getFromIndexedDB. unfold Home.KEY. rewrite Hmiss. simpl.
    unfold then_catch, bind. rewrite Hf. unfold saveToIndexedDB, ret. simpl.
    unfold w'. simpl. rewrite insert_insert_eq. reflexivity.
  - unfold NewsAnalytics.refresh. rewrite Hb, Ho. simpl.
    unfold bind at 1, getFromIndexedDB. unfold NewsAnalytics.KEY. rewrite Hmiss. simpl.
    unfold then_catch, bind. rewrite Hf. unfold saveToIndexedDB, ret. simpl.
    unfold w'. simpl. rewrite insert_insert_eq. reflexivity.
Qed.

Lemma refresh_fetches_once_and_persists_witness :
  Home.refresh (Sample.client 9 Sample.net_ok) (Home.initial Sample.home_props)
    Sample.empty_world
  = (Ok (Home.mkState
           (Some [Sample.art "news" "Fed raises rates" (Some "Jane")])
           (Some [Sample.art "blogs" "Fed raises rates" (Some "Jane")])
           false
           (Some (mkNB (Some [Sample.art "news" "Fed raises rates" (Some "Jane")])
                    (Some [Sample.art "blogs" "Fed raises rates" (Some "Jane")])))),
     mkWorld
       (<["newsapi_news_blogs" :=
          mkCache None (Some [Sample.art "news" "Fed raises rates" (Some "Jane")])
            (Some [Sample.art "blogs" "Fed raises rates" (Some "Jane")]) 9]> ∅)
       [TopHeadlinesIn "technology"; TopHeadlinesIn "general"]).
Proof.
  destruct (refresh_fetches_once_and_persists (Sample.client 9 Sample.net_ok)
              Sample.empty_world true true
              (Some [Sample.raw "Fed raises rates" (Some "Jane")])
              (Some [Sample.raw "Fed raises rates" (Some "Jane")])
              eq_refl eq_refl eq_refl eq_refl eq_refl) as [H _].
  exact (H (Home.initial Sample.home_props)).
Defined.

Section Offline.
Variable env : Env.
Hypothesis Hoff : online env = false.

Lemma Home_effect_offline p e st w :
  requests (snd (Home.run_effect env p e st w)) = requests w.
Proof.
  destruct e; simpl.
  - unfold Home.hydrate. destruct (browser env); [| reflexivity]. run_eff.
    destruct (has_news_blogs (store w !! Home.KEY)); reflexivity.
  - unfold Home.refresh. rewrite Hoff, andb_false_r. reflexivity.
  - unfold Home.offline. destruct (browser env && negb (online env)); [| reflexivity].
    run_eff. destruct (has_news_blogs (store w !! Home.KEY)); reflexivity.
  - unfold Home.emptyFallback, Home.both_empty. run_eff.
    destruct (Home.news st) as [[| ? ?] |]; try reflexivity.
    destruct (Home.blogs st) as [[| ? ?] |]; try reflexivity. simpl.
    destruct (browser env); [| reflexivity]. simpl.
    destruct (has_news_blogs (store w !! Home.KEY)); reflexivity.
Qed.

Lemma Analytics_effect_offline p e st w :
  requests (snd (NewsAnalytics.run_effect env p e st w)) = requests w.
Proof.
  destruct e; simpl.
  - unfold NewsAnalytics.hydrate. destruct (browser env); [| reflexivity]. run_eff.
    destruct (has_news_blogs (store w !! NewsAnalytics.KEY)); reflexivity.
  - unfold NewsAnalytics.refresh. rewrite Hoff, andb_false_r. reflexivity.
  - unfold NewsAnalytics.offline.
    destruct (browser env && negb (online env)); [| reflexivity].
    run_eff. destruct (has_news_blogs (store w !! NewsAnalytics.KEY)); reflexivity.
Qed.

Lemma Payout_effect_offline p e st w :
  requests (snd (AdminPayout.run_effect env p e st w)) = requests w.
Proof.
  destruct e; simpl.
  - unfold AdminPayout.hydrate. destruct (browser env); [| reflexivity]. run_eff.
    destruct (has_articles (store w !! AdminPayout.KEY)); reflexivity.
  - unfold AdminPayout.refresh. rewrite Hoff, andb_false_r. reflexivity.
  - unfold AdminPayout.offline.
    destruct (browser env && negb (online env)); [| reflexivity].
    run_eff. destruct (has_articles (store w !! AdminPayout.KEY)); reflexivity.
Qed.

End Offline.

(** X21: without connectivity no page ever calls the provider: when the
    browser reports that it is offline, the effects of the dashboard, of the
    analytics page and of the payout page, run in any order and any number of
    times from any state, issue no request. *)
Theorem offline_pages_issue_no_request (env : Env) (w : World) :
  online env = false ->
  (forall p es st,
     requests (snd (Home.run_effects env p es st w)) = requests w)
  /\ (forall p es st,
     requests (snd (NewsAnalytics.run_effects env p es st w)) = requests w)
  /\ (forall p es st,
     requests (snd (AdminPayout.run_effects env p es st w)) = requests w).
Proof.
  intros Hoff. split; [| split]; intros p es; revert w;
    induction es as [| e es IH]; intros w st; simpl; try reflexivity; unfold bind.
  - pose proof (Home_effect_offline env Hoff p e st w) as He.
    destruct (Home.run_effect env p e st w) as [[st1 |] w1]; simpl in *;
      [rewrite IH |]; exact He.
  - pose proof (Analytics_effect_offline env Hoff p e st w) as He.
    destruct (NewsAnalytics.run_effect env p e st w) as [[st1 |] w1]; simpl in *;
      [rewrite IH |]; exact He.
  - pose proof (Payout_effect_offline env Hoff p e st w) as He.
    destruct (AdminPayout.run_effect env p e st w) as [[st1 |] w1]; simpl in *;
      [rewrite IH |]; exact He.
Qed.

Lemma offline_pages_issue_no_request_witness :
  requests
    (snd (AdminPayout.run_effects (mkEnv true false 5 Sample.net_ok)
            Sample.payout_props
            [AdminPayout.Refresh; AdminPayout.Hydrate; AdminPayout.Offline]
            (AdminPayout.initial Sample.payout_props) Sample.empty_world))
  = requests Sample.empty_world.
Proof.
  destruct (offline_pages_issue_no_request (mkEnv true false 5 Sample.net_ok)
              Sample.empty_world eq_refl) as (_ & _ & H).
  apply H.
Defined.

(** X22: the refresh step of the payout page, online and with nothing under
    [newsapi_news_blogs], shows the news followed by the blogs and stores that
    list under the page's own key; the fetcher has stored the two collections
    under [newsapi_news_blogs] on the way, so that a later hydration of the
    dashboard adopts them without a request. *)
Theorem payout_refresh_persists_and_feeds_the_dashboard
    (env env' : Env) (w : World) (ok1 ok2 : bool) (d1 d2 : option (list RawItem))
    (st : AdminPayout.State) :
  browser env = true -> online env = true -> browser env' = true ->
  store w !! "newsapi_news_blogs" = None ->
  network env (TopHeadlinesIn "technology") = Response ok1 (BodyData d1) ->
  network env (TopHeadlinesIn "general") = Response ok2 (BodyData d2) ->
  let news := mapArticles "news" d1 in
  let blogs := mapArticles "blogs" d2 in
  let w' := mkWorld
              (<[AdminPayout.KEY := mkCache (Some (news ++ blogs)) None None (now env)]>
                 (<["newsapi_news_blogs" :=
                    mkCache None (Some news) (Some blogs) (now env)]> (store w)))
              (requests w ++ [TopHeadlinesIn "technology"; TopHeadlinesIn "general"]) in
  AdminPayout.refresh env st w = (Ok (AdminPayout.mkState (news ++ blogs)), w')
  /\ forall p sh,
       Home.hydrate env' p sh w'
       = (Ok (Home.mkState (Some news) (Some blogs) (Home.apiError sh)
                (Some (mkNB (Some news) (Some blogs)))), w').
Proof.
  intros Hb Ho Hb' Hmiss H1 H2 news blogs w'. split.
  - unfold AdminPayout.refresh. rewrite Hb, Ho. simpl.
    unfold then_catch, bind.
    rewrite (fetchNewsAndBlogs_miss env w (or_intror Hmiss)).
    rewrite (fetchNewsAndBlogs_remote_any_status env w ok1 ok2 d1 d2 H1 H2).
    rewrite Hb. reflexivity.
  - intros p sh.
    apply Home_hydrate_cached
      with (c := mkCache None (Some news) (Some blogs) (now env));
      try reflexivity; [exact Hb' |].
    unfold w'. simpl. rewrite lookup_insert_ne by discriminate.
    apply lookup_insert_eq.
Qed.

Lemma payout_refresh_persists_and_feeds_the_dashboard_witness :
  AdminPayout.refresh (Sample.client 9 Sample.net_ok)
    (AdminPayout.initial Sample.payout_props) Sample.empty_world
  = (Ok (AdminPayout.mkState
           ([Sample.art "news" "Fed raises rates" (Some "Jane")]
            ++ [Sample.art "blogs" "Fed raises rates" (Some "Jane")])),
     mkWorld
       (<[AdminPayout.KEY :=
          mkCache (Some ([Sample.art "news" "Fed raises rates" (Some "Jane")]
                         ++ [Sample.art "blogs" "Fed raises rates" (Some "Jane")]))
            None None 9]>
          (<["newsapi_news_blogs" :=
             mkCache None (Some [Sample.art "news" "Fed raises rates" (Some "Jane")])
               (Some [Sample.art "blogs" "Fed raises rates" (Some "Jane")]) 9]> ∅))
       [TopHeadlinesIn "technology"; TopHeadlinesIn "general"]).
Proof.
  destruct (payout_refresh_persists_and_feeds_the_dashboard
              (Sample.client 9 Sample.net_ok) (Sample.client 9 Sample.net_ok)
              Sample.empty_world true true
              (Some [Sample.raw "Fed raises rates" (Some "Jane")])
              (Some [Sample.raw "Fed raises rates" (Some "Jane")])
              (AdminPayout.initial Sample.payout_props)
              eq_refl eq_refl eq_refl eq_refl eq_refl eq_refl) as [H _].
  exact H.
Defined.

(** ** Roles and navigation *)

Lemma isAdmin_after_callback s :
  Navbar.isAdmin (Some (Auth.sessionCallback s)) = true <->
  exists u, Auth.user s = Some u /\ Auth.email u = Some Auth.ADMIN_EMAIL.
Proof.
  unfold Navbar.isAdmin, Auth.sessionCallback. rewrite bool_decide_eq_true.
  destruct (Auth.user s) as [u |] eqn:Hu; simpl.
  - destruct (bool_decide (Auth.email u = Some Auth.ADMIN_EMAIL)) eqn:E.
    + apply bool_decide_eq_true in E. split; eauto.
    + apply bool_decide_eq_false in E. split; [discriminate |].
      intros (u' & [= <-] & H). contradiction.
  - rewrite Hu. simpl. split; [discriminate | intros (u & H & _); discriminate].
Qed.

(** X23: the link to the payout calculator is shown exactly to a signed-in
    user whose email is the administrator's address: the session callback
    derives the role from the email alone, overwriting whatever role the
    session carried.  A signed-out visitor is shown the dashboard link only;
    [MyAppContent] leaves the bar out while the session is loading or
    absent, so whenever it renders the bar the analytics link is there and
    the "Not signed in" label is not. *)
Theorem payout_link_only_for_the_admin_email (s : Auth.Session) :
  (In "/admin-payout" (Navbar.links (Some (Auth.sessionCallback s))) <->
   exists u, Auth.user s = Some u /\ Auth.email u = Some Auth.ADMIN_EMAIL)
  /\ Navbar.links None = ["/"]
  /\ (forall status session ls,
      App.MyAppContent status session = Some ls ->
      status <> App.loading
      /\ In "/" ls /\ In "/news-analytics" ls
      /\ Navbar.label session <> None).
Proof.
  split; [| split].
  - rewrite <- isAdmin_after_callback. unfold Navbar.links. simpl.
    destruct (Navbar.isAdmin (Some (Auth.sessionCallback s))); simpl; split.
    + reflexivity.
    + intros _. right. right. now left.
    + intros [H | [H | []]]; discriminate.
    + discriminate.
  - reflexivity.
  - intros status session ls.
    destruct status, session as [s0 |]; simpl; try discriminate;
      intros [= <-]; (split; [discriminate |]); unfold Navbar.links; simpl;
      (split; [now left |]); (split; [right; now left | discriminate]).
Qed.

Lemma payout_link_only_for_the_admin_email_witness :

  App.authenticated <> App.loading
  /\ In "/" (Navbar.links (Some (Auth.mkSession None)))
  /\ In "/news-analytics" (Navbar.links (Some (Auth.mkSession None)))
  /\ Navbar.label (Some (Auth.mkSession None)) <> None.
Proof.
  destruct (payout_link_only_for_the_admin_email (Auth.mkSession None)) as (_ & _ & H).
  apply (H App.authenticated (Some (Auth.mkSession None))). reflexivity.
Defined.
